(** * Crispy: designspace axis merger and width inspector

    A shallow embedding of [generate_new_designspace.py] and of the two
    [widths-inspector] scripts, with the properties of the repository's
    specification stated and proved over it.

    Conventions of the embedding.
    - Python floats are exact rationals ([Q]); [float('inf')] is a
      constructor of its own where the code uses it.  Rounding and NaN are
      outside the model.
    - Python dictionaries keyed by strings are [gmap string _]; the rows that
      [csv.DictReader] yields keep their insertion order (association lists).
    - Exceptions are values of [exn]; a function that may raise returns a
      [result].
    - The file system is the set of directory paths that exist. *)

From Stdlib Require Import Ascii String QArith Qminmax.
From stdpp Require Import gmap strings list fin_maps sorting.

Open Scope string_scope.
Open Scope list_scope.

(** ** Exceptions and results *)

(** [KeyError_int] is the [KeyError] of a subscription by an integer. *)
Inductive exn : Type :=
  | KeyError (key : string)
  | KeyError_int (key : nat)
  | ValueError
  | TypeError
  | AttributeError
  | CalledProcessError (returncode : Z)
  | OSError
  | SystemExit (code : Z)
  | KeyboardInterrupt.

(** [except Exception] catches everything but the [BaseException]-only
    classes. *)
Definition is_Exception (e : exn) : bool :=
  match e with
  | SystemExit _ | KeyboardInterrupt => false
  | _ => true
  end.

Inductive result (A : Type) : Type :=
  | Ok (a : A)
  | Raise (e : exn).
Arguments Ok {A} a.
Arguments Raise {A} e.

#[global] Instance result_ret : MRet result := fun A a => Ok a.
#[global] Instance result_bind : MBind result := fun A B k r =>
  match r with
  | Ok a => k a
  | Raise e => Raise e
  end.

(** [for x in l: body] over a state that the body may abort. *)
Fixpoint for_each {A S} (body : A → S → result S) (l : list A) (s : S)
  : result S :=
  match l with
  | [] => Ok s
  | x :: l' => s' ← body x s ; for_each body l' s'
  end.

(** A list comprehension whose element expression may raise. *)
Fixpoint map_result {A B} (f : A → result B) (l : list A) : result (list B) :=
  match l with
  | [] => Ok []
  | x :: l' => y ← f x ; ys ← map_result f l' ; Ok (y :: ys)
  end.

(** ** Strings *)

Fixpoint str_take (n : nat) (s : string) : string :=
  match n, s with
  | S n', String c s' => String c (str_take n' s')
  | _, _ => ""
  end.

Fixpoint str_drop (n : nat) (s : string) : string :=
  match n, s with
  | S n', String _ s' => str_drop n' s'
  | _, _ => s
  end.

(** [needle in hay] on [str]. *)
Fixpoint contains (needle hay : string) : bool :=
  if String.prefix needle hay then true
  else match hay with
       | "" => false
       | String _ hay' => contains needle hay'
       end.

Definition is_space (c : ascii) : bool :=
  let n := nat_of_ascii c in
  ((9 <=? n)%nat && (n <=? 13)%nat) || ((28 <=? n)%nat && (n <=? 32)%nat).

Fixpoint lstrip (s : string) : string :=
  match s with
  | String c s' => if is_space c then lstrip s' else s
  | "" => ""
  end.

Definition strip (s : string) : string :=
  String.rev (lstrip (String.rev (lstrip s))).

(** [sep.join(l)] *)
Fixpoint str_join (sep : string) (l : list string) : string :=
  match l with
  | [] => ""
  | [x] => x
  | x :: l' => x +:+ sep +:+ str_join sep l'
  end.

(** ** Numbers *)

Definition Qltb (x y : Q) : bool := negb (Qle_bool y x).

(** [min(values)] and [max(values)]: the first smallest (largest) element;
    [ValueError] on an empty sequence. *)
Definition py_min (values : list Q) : result Q :=
  match values with
  | [] => Raise ValueError
  | v :: vs => Ok (foldl (fun m x => if Qltb x m then x else m) v vs)
  end.

Definition py_max (values : list Q) : result Q :=
  match values with
  | [] => Raise ValueError
  | v :: vs => Ok (foldl (fun m x => if Qltb m x then x else m) v vs)
  end.

(** ** Insertion-ordered dictionaries *)

Section Dict.
Context {K V : Type} `{EqDecision K}.

(** [d[k] = v]: an existing key keeps its position. *)
Fixpoint dict_set (k : K) (v : V) (d : list (K * V)) : list (K * V) :=
  match d with
  | [] => [(k, v)]
  | (k', v') :: d' =>
      if decide (k' = k) then (k, v) :: d' else (k', v') :: dict_set k v d'
  end.

Fixpoint dict_get (k : K) (d : list (K * V)) : option V :=
  match d with
  | [] => None
  | (k', v') :: d' => if decide (k' = k) then Some v' else dict_get k d'
  end.
End Dict.

(** ** csv.DictReader

    The input is what [csv.reader] yields: one list of fields per record.
    A row maps every field name to the record's field, or to [None]
    ([restval]) when the record is too short; surplus fields are kept as a
    list under [restkey], which is inserted last. *)

Record row_dict : Type := {
  fields : list (string * option string);
  rest : option (list string)
}.

Definition dict_row (fieldnames record : list string) : row_dict :=
  let d := foldl (fun d kv => dict_set kv.1 (Some kv.2) d) []
                 (zip fieldnames record) in
  let lf := length fieldnames in
  let lr := length record in
  if (lf <? lr)%nat then {| fields := d; rest := Some (drop lf record) |}
  else
    {| fields := foldl (fun d k => dict_set k None d) d (drop lr fieldnames);
       rest := None |}.

Definition is_blank (record : list string) : bool :=
  match record with [] => true | _ => false end.

(** [list(reader)] once the header has been consumed: blank records are
    not returned. *)
Definition DictReader_rows (fieldnames : list string)
    (records : list (list string)) : list row_dict :=
  map (dict_row fieldnames) (filter (fun r => negb (is_blank r)) records).

(** [reader.fieldnames]: the first record, [None] for an empty file. *)
Definition DictReader_fieldnames (csvfile : list (list string))
  : option (list string) := head csvfile.

(** ** Designspace data model *)

Record minmax : Type := { mm_min : Q; mm_max : Q }.

Record AxisDescriptor : Type := {
  axis_name : string;
  axis_tag : string;
  axis_minimum : Q;
  axis_maximum : Q;
  axis_default : Q
}.

Record SourceDescriptor : Type := {
  src_filename : string;
  src_name : option string;
  src_familyName : option string;
  src_styleName : option string;
  src_location : gmap string Q
}.

Record InstanceDescriptor : Type := {
  inst_styleName : option string;
  inst_location : option (gmap string Q)
}.

Record DesignSpaceDocument : Type := {
  axes : list AxisDescriptor;
  sources : list SourceDescriptor;
  instances : list InstanceDescriptor
}.

(** ** 1. Parse CSV for -e axes and build StyleName lookup *)

Section Discovery.
(** [float(v)] on a string; [None] stands for [ValueError]. *)
Variable float : string → option Q.

Definition float_str (s : string) : result Q :=
  match float s with
  | Some q => Ok q
  | None => Raise ValueError
  end.

(** [[h for h in reader.fieldnames if '-e' in h]] *)
Definition e_axes_of (fieldnames : list string) : list string :=
  filter (fun h => contains "-e" h = true) fieldnames.

(** [row['Instance'].strip()] *)
Definition row_style (row : row_dict) : result string :=
  match dict_get "Instance" (fields row) with
  | None => Raise (KeyError "Instance")
  | Some None => Raise AttributeError
  | Some (Some s) => Ok (strip s)
  end.

(** One item of [{k: float(v) for k, v in row.items()
    if k != 'Instance' and v}] taken from the named fields. *)
Definition lookup_item (sub : gmap string Q) (kv : string * option string)
  : result (gmap string Q) :=
  match kv with
  | (k, Some v) =>
      if bool_decide (k ≠ "Instance") && negb (String.eqb v "")
      then q ← float_str v ; Ok (<[k := q]> sub)
      else Ok sub
  | (_, None) => Ok sub
  end.

(** The whole comprehension: the entry under [restkey] comes last, and
    [float] of its list is a [TypeError]. *)
Definition row_lookup (row : row_dict) : result (gmap string Q) :=
  sub ← foldl (fun acc kv => sub ← acc ; lookup_item sub kv) (Ok ∅)
            (fields row) ;
  match rest row with
  | Some (_ :: _) => Raise TypeError
  | _ => Ok sub
  end.

Definition build_style_lookup (rows : list row_dict)
  : result (gmap string (gmap string Q)) :=
  for_each (fun row style_lookup =>
              style ← row_style row ;
              sub ← row_lookup row ;
              Ok (<[style := sub]> style_lookup))
           rows ∅.

(** [axis in row and row[axis]] *)
Definition row_value (axis : string) (row : row_dict) : option string :=
  match dict_get axis (fields row) with
  | Some (Some v) => if String.eqb v "" then None else Some v
  | _ => None
  end.

(** [[float(row[axis]) for row in rows if axis in row and row[axis]]] *)
Definition column_values (axis : string) (rows : list row_dict)
  : result (list Q) :=
  map_result float_str (omap (row_value axis) rows).

Definition build_axis_minmax (e_axes : list string) (rows : list row_dict)
  : result (gmap string minmax) :=
  for_each (fun axis axis_minmax =>
              values ← column_values axis rows ;
              mn ← py_min values ;
              mx ← py_max values ;
              Ok (<[axis := {| mm_min := mn; mm_max := mx |}]> axis_minmax))
           e_axes ∅.

Definition get_e_axes_and_lookup (csvfile : list (list string))
  : result (list string * gmap string minmax
            * gmap string (gmap string Q) * list row_dict) :=
  match DictReader_fieldnames csvfile with
  | None => Raise (SystemExit 1)
  | Some fieldnames =>
      let e_axes := e_axes_of fieldnames in
      let rows := DictReader_rows fieldnames (tail csvfile) in
      style_lookup ← build_style_lookup rows ;
      axis_minmax ← build_axis_minmax e_axes rows ;
      Ok (e_axes, axis_minmax, style_lookup, rows)
  end.
End Discovery.

(** ** Paths ([os.path] on POSIX) *)

(** [s.rfind(c)], [None] for -1. *)
Fixpoint rfind (c : ascii) (s : string) : option nat :=
  match s with
  | "" => None
  | String c' s' =>
      match rfind c s' with
      | Some i => Some (S i)
      | None => if Ascii.eqb c' c then Some 0%nat else None
      end
  end.

(** [p[p.rfind('/') + 1:]] *)
Definition basename (p : string) : string :=
  match rfind "/" p with
  | Some i => str_drop (S i) p
  | None => p
  end.

Fixpoint lstrip_sep (s : string) : string :=
  match s with
  | String "/" s' => lstrip_sep s'
  | _ => s
  end.

(** [head = p[:p.rfind('/') + 1]], with its trailing separators removed
    unless it consists of separators only. *)
Definition dirname (p : string) : string :=
  match rfind "/" p with
  | Some i =>
      let head := str_take (S i) p in
      let stripped := String.rev (lstrip_sep (String.rev head)) in
      if String.eqb stripped "" then head else stripped
  | None => ""
  end.

Definition has_nondot (s : string) : bool :=
  existsb (fun c => negb (Ascii.eqb c ".")) (list_ascii_of_string s).

(** [genericpath._splitext]: split at the last dot when it comes after the
    last separator and some character between them is not a dot. *)
Definition splitext (p : string) : string * string :=
  let filenameIndex :=
    match rfind "/" p with Some i => S i | None => 0%nat end in
  match rfind "." p with
  | Some dotIndex =>
      if (filenameIndex <=? dotIndex)%nat
         && has_nondot (str_take (dotIndex - filenameIndex)
                                 (str_drop filenameIndex p))
      then (str_take dotIndex p, str_drop dotIndex p)
      else (p, "")
  | None => (p, "")
  end.

Definition starts_with_sep (s : string) : bool :=
  match s with String "/" _ => true | _ => false end.

Definition ends_with_sep (s : string) : bool :=
  starts_with_sep (String.rev s).

(** [os.path.join(a, b)] *)
Definition path_join (a b : string) : string :=
  if starts_with_sep b then b
  else if String.eqb a "" || ends_with_sep a then a +:+ b
  else a +:+ "/" +:+ b.

Definition UFO_SOURCE_DIR : string := "master_ufo".
Definition UFO_OUTPUT_DIR : string := "master_ufo".
Definition OUTPUT_DESIGNSPACE : string :=
  path_join UFO_OUTPUT_DIR "Crispy-updated.designspace".

(** [d[k]] on a dictionary keyed by strings. *)
Definition getitem {V} (d : gmap string V) (k : string) : result V :=
  match d !! k with
  | Some v => Ok v
  | None => Raise (KeyError k)
  end.

(** ** 2. Update designspace axes *)

Definition new_axis (axis : string) (mm : minmax) : AxisDescriptor :=
  {| axis_name := axis;
     axis_tag := str_take 4 axis;
     axis_minimum := mm_min mm;
     axis_maximum := mm_max mm;
     axis_default := mm_min mm |}.

Definition append_axis (doc : DesignSpaceDocument) (ad : AxisDescriptor)
  : DesignSpaceDocument :=
  {| axes := axes doc ++ [ad];
     sources := sources doc;
     instances := instances doc |}.

(** The body of [for axis in e_axes]; [existing_axis_names] was computed
    before the loop. *)
Definition ensure_axis (existing_axis_names : list string)
    (axis_minmax : gmap string minmax) (axis : string)
    (doc : DesignSpaceDocument) : result DesignSpaceDocument :=
  if bool_decide (axis ∉ existing_axis_names)
  then mm ← getitem axis_minmax axis ;
       Ok (append_axis doc (new_axis axis mm))
  else Ok doc.

Definition ensure_e_axes (doc : DesignSpaceDocument) (e_axes : list string)
    (axis_minmax : gmap string minmax) : result DesignSpaceDocument :=
  let existing_axis_names := map axis_name (axes doc) in
  for_each (ensure_axis existing_axis_names axis_minmax) e_axes doc.

(** The descriptors that the merge appends, in order. *)
Definition axes_to_add (existing_axis_names e_axes : list string)
    (axis_minmax : gmap string minmax) : list AxisDescriptor :=
  omap (fun axis =>
          if bool_decide (axis ∉ existing_axis_names)
          then new_axis axis <$> axis_minmax !! axis
          else None)
       e_axes.

Definition with_axes (doc : DesignSpaceDocument)
    (axes : list AxisDescriptor) : DesignSpaceDocument :=
  {| axes := axes; sources := sources doc; instances := instances doc |}.

(** ** 3. Duplicate UFOs and add new sources *)

(** What the run prints and does to the file system, in order. *)
Inductive event : Type :=
  | Print_duplicating (orig_ufo_path new_ufo_path : string)
  | Rmtree (path : string)
  | Print_warning_not_found (orig_ufo_path : string)
  | Copytree (src dst : string)
  | Print_added_source (filename : string) (location : gmap string Q).

Record dup_state : Type := {
  st_fs : gset string;
  st_sources : list SourceDescriptor;
  st_new_sources : list SourceDescriptor;
  st_trace : list event
}.

(** [for axis in e_axes: location[axis] = axis_minmax[axis][bound]] *)
Definition set_e_axes (bound : minmax → Q) (e_axes : list string)
    (axis_minmax : gmap string minmax) (location : gmap string Q)
  : result (gmap string Q) :=
  for_each (fun axis location =>
              mm ← getitem axis_minmax axis ;
              Ok (<[axis := bound mm]> location))
           e_axes location.

(** [f"{x}"] of an attribute that may be [None]. *)
Definition format_opt (x : option string) : string :=
  match x with Some s => s | None => "None" end.

Definition max_suffix (e_axes : list string) : string :=
  str_join "-" (map (fun a => a +:+ "Max") e_axes).

Definition orig_ufo_path (source : SourceDescriptor) : string :=
  path_join UFO_SOURCE_DIR (basename (src_filename source)).

Definition new_ufo_name (e_axes : list string) (source : SourceDescriptor)
  : string :=
  let '(ufo_base, ufo_ext) := splitext (basename (src_filename source)) in
  ufo_base +:+ "-" +:+ max_suffix e_axes +:+ ufo_ext.

Definition new_ufo_path (e_axes : list string) (source : SourceDescriptor)
  : string :=
  path_join UFO_OUTPUT_DIR (new_ufo_name e_axes source).

Definition with_location (source : SourceDescriptor)
    (location : gmap string Q) : SourceDescriptor :=
  {| src_filename := src_filename source;
     src_name := src_name source;
     src_familyName := src_familyName source;
     src_styleName := src_styleName source;
     src_location := location |}.

(** [location'] agrees with [location] except that every extension axis
    has its bound. *)
Definition moved_to (bound : minmax → Q) (e_axes : list string)
    (axis_minmax : gmap string minmax) (location location' : gmap string Q)
  : Prop :=
  ∀ k, location' !! k
       = if decide (k ∈ e_axes) then bound <$> axis_minmax !! k
         else location !! k.

(** The removal an iteration performs when the destination exists. *)
Definition removal (e_axes : list string) (source : SourceDescriptor)
    (fs : gset string) : list event :=
  if bool_decide (new_ufo_path e_axes source ∈ fs)
  then [Rmtree (new_ufo_path e_axes source)] else [].

(** [new_sources = []], before the loop. *)
Definition initial_state (fs : gset string) : dup_state :=
  {| st_fs := fs; st_sources := []; st_new_sources := []; st_trace := [] |}.

Section Duplication.
(** [os.path.relpath], which depends on the working directory. *)
Variable relpath : string → string → string.

Variable e_axes : list string.
Variable axis_minmax : gmap string minmax.

(** The descriptor of the duplicate: [new_source = SourceDescriptor()]
    and the assignments that follow. *)
Definition make_new_source (source : SourceDescriptor)
    (new_location : gmap string Q) : SourceDescriptor :=
  let ufo_base := (splitext (basename (src_filename source))).1 in
  {| src_filename :=
       relpath (new_ufo_path e_axes source) (dirname OUTPUT_DESIGNSPACE);
     src_name := Some (ufo_base +:+ "-" +:+ max_suffix e_axes);
     src_familyName := src_familyName source;
     src_styleName :=
       Some (format_opt (src_styleName source) +:+ "-"
             +:+ max_suffix e_axes);
     src_location := new_location |}.

(** One iteration of [for source in doc.sources]. *)
Definition duplicate_source (source : SourceDescriptor) (st : dup_state)
  : result dup_state :=
  location ← set_e_axes mm_min e_axes axis_minmax (src_location source) ;
  let source := with_location source location in
  let orig := orig_ufo_path source in
  let new := new_ufo_path e_axes source in
  let trace := st_trace st ++ [Print_duplicating orig new] in
  let '(fs, trace) :=
    if bool_decide (new ∈ st_fs st)
    then (st_fs st ∖ {[new]}, trace ++ [Rmtree new])
    else (st_fs st, trace) in
  if bool_decide (orig ∉ fs)
  then Ok {| st_fs := fs;
             st_sources := st_sources st ++ [source];
             st_new_sources := st_new_sources st;
             st_trace := trace ++ [Print_warning_not_found orig] |}
  else
    let fs := fs ∪ {[new]} in
    new_location ← set_e_axes mm_max e_axes axis_minmax location ;
    let new_source := make_new_source source new_location in
    Ok {| st_fs := fs;
          st_sources := st_sources st ++ [source];
          st_new_sources := st_new_sources st ++ [new_source];
          st_trace := trace ++ [Copytree orig new;
                                Print_added_source
                                  (src_filename new_source) new_location] |}.

Definition duplicate_loop (srcs : list SourceDescriptor) (st : dup_state)
  : result dup_state :=
  for_each duplicate_source srcs st.

(** The document is updated in place; the file system and the trace are
    returned along with it. *)
Definition duplicate_sources_and_update_designspace (fs : gset string)
    (doc : DesignSpaceDocument)
  : result (gset string * DesignSpaceDocument * list event) :=
  st ← duplicate_loop (sources doc) (initial_state fs) ;
  Ok (st_fs st,
      {| axes := axes doc;
         sources := st_sources st ++ st_new_sources st;
         instances := instances doc |},
      st_trace st).
End Duplication.

(** ** 4. Update all instances to have the -e axis value from CSV or default *)

Definition with_axis_value (instance : InstanceDescriptor) (axis : string)
    (axis_value : Q) : InstanceDescriptor :=
  let location :=
    match inst_location instance with
    | Some location => location
    | None => ∅
    end in
  {| inst_styleName := inst_styleName instance;
     inst_location := Some (<[axis := axis_value]> location) |}.

(** Truthiness of [getattr(instance, 'styleName', None)]. *)
Definition truthy_name (style_name : option string) : option string :=
  match style_name with
  | Some s => if String.eqb s "" then None else Some s
  | None => None
  end.

Definition instance_axis_value (style_lookup : gmap string (gmap string Q))
    (style_name : option string) (axis : string) (default_value : Q) : Q :=
  match truthy_name style_name with
  | Some s =>
      match style_lookup !! s with
      | Some sub =>
          match sub !! axis with
          | Some v => v
          | None => default_value
          end
      | None => default_value
      end
  | None => default_value
  end.

(** The coordinate an instance has on an axis, if its location defines
    one. *)
Definition coordinate (instance : InstanceDescriptor) (axis : string)
  : option Q :=
  match inst_location instance with
  | Some location => location !! axis
  | None => None
  end.

(** The body of [for axis in e_axes]. *)
Definition update_instance_axis (axis_minmax : gmap string minmax)
    (style_lookup : gmap string (gmap string Q))
    (style_name : option string) (axis : string)
    (instance : InstanceDescriptor) : result InstanceDescriptor :=
  mm ← getitem axis_minmax axis ;
  let default_value := ((mm_min mm + mm_max mm) / 2)%Q in
  let axis_value :=
    instance_axis_value style_lookup style_name axis default_value in
  Ok (with_axis_value instance axis axis_value).

(** The body of [for instance in doc.instances]. *)
Definition update_instance (e_axes : list string)
    (axis_minmax : gmap string minmax)
    (style_lookup : gmap string (gmap string Q))
    (instance : InstanceDescriptor) : result InstanceDescriptor :=
  let style_name := inst_styleName instance in
  for_each (update_instance_axis axis_minmax style_lookup style_name)
           e_axes instance.

Definition update_instances_with_e_axes (doc : DesignSpaceDocument)
    (e_axes : list string) (axis_minmax : gmap string minmax)
    (style_lookup : gmap string (gmap string Q))
  : result DesignSpaceDocument :=
  insts ← map_result (update_instance e_axes axis_minmax style_lookup)
                     (instances doc) ;
  Ok {| axes := axes doc; sources := sources doc; instances := insts |}.

(** ** 5. Set axis defaults to the minimum value among all sources *)

Inductive pyfloat : Type :=
  | Finite (q : Q)
  | Inf.

(** [min(m, v)] with [m] possibly [float('inf')]: the first argument
    unless the second is smaller. *)
Definition min_with (m : pyfloat) (v : Q) : pyfloat :=
  match m with
  | Inf => Finite v
  | Finite x => if Qltb v x then Finite v else Finite x
  end.

(** An [<axis>] element of the serialized document: the two attributes the
    pass reads and writes, and the others. *)
Record axis_elem : Type := {
  elem_name : option string;
  elem_default : option string;
  elem_attrs : list (string * string)
}.

Section Defaults.
(** [str] of a float. *)
Variable str : pyfloat → string.

(** [{axis: float('inf') for axis in axis_names}] *)
Definition initial_min_values (axis_names : list string)
  : gmap string pyfloat :=
  foldl (fun d axis => <[axis := Inf]> d) ∅ axis_names.

Definition min_values_of_source (axis_names : list string)
    (source : SourceDescriptor) (min_values : gmap string pyfloat)
  : result (gmap string pyfloat) :=
  for_each (fun axis min_values =>
              match src_location source !! axis with
              | Some v =>
                  m ← getitem min_values axis ;
                  Ok (<[axis := min_with m v]> min_values)
              | None => Ok min_values
              end)
           axis_names min_values.

Definition compute_min_values (doc : DesignSpaceDocument)
  : result (gmap string pyfloat) :=
  let axis_names := map axis_name (axes doc) in
  for_each (min_values_of_source axis_names) (sources doc)
           (initial_min_values axis_names).

Definition set_default (min_values : gmap string pyfloat)
    (elem : axis_elem) : axis_elem :=
  match elem_name elem with
  | Some name =>
      match min_values !! name with
      | Some m =>
          {| elem_name := elem_name elem;
             elem_default := Some (str m);
             elem_attrs := elem_attrs elem |}
      | None => elem
      end
  | None => elem
  end.

(** The pass maps the [axes/axis] elements of the file at [output_path]
    to the elements written back. *)
Definition set_axis_defaults_to_minimums (axis_elems : list axis_elem)
    (doc : DesignSpaceDocument) : result (list axis_elem) :=
  min_values ← compute_min_values doc ;
  Ok (map (set_default min_values) axis_elems).
End Defaults.

(** ** Width inspection

    The external world of one run: whether [export] could be created, how
    [fontmake] ended, which [*.otf] files the glob finds, and for each file
    what shaping [text] measures and what [TTFont] reads. *)

(** A named instance of the [fvar] table: what [getDebugName] gives for its
    name, and its [coordinates], which fontTools keys by axis tag. *)
Record named_instance : Type := {
  ni_name : result (option string);
  ni_coordinates : gmap string Q
}.

Record fvar_table : Type := {
  fvar_axes : list string;
  fvar_instances : list named_instance
}.

Record otf_file : Type := {
  otf_stem : string;
  otf_measure : result Z;
  otf_ttfont : result (option fvar_table)
}.

Record environment : Type := {
  env_mkdir : result unit;
  env_fontmake : result Z;
  env_otf_files : list otf_file
}.

Inductive log_record : Type :=
  | Info_generating
  | Error_no_otf
  | Info_generated (count : nat)
  | Info_processing (instance_name : string)
  | Info_width (instance_name : string) (width : Z)
  | Warning_extract (e : exn)
  | Error_fontmake_failed (e : exn)
  | Error_processing (e : exn).

(** [subprocess.run(..., check=True)]: a non-zero exit status raises
    [CalledProcessError]. *)
Definition subprocess_run_check (outcome : result Z) : result unit :=
  returncode ← outcome ;
  if (returncode =? 0)%Z then Ok () else Raise (CalledProcessError returncode).

(** The two [except] clauses that close [process_instances_with_harfbuzz]:
    the error is logged and execution continues after the [try]; an
    exception outside [Exception] propagates. *)
Definition handle (e : exn) (log : list log_record)
  : result (list log_record) :=
  match e with
  | CalledProcessError _ => Ok (log ++ [Error_fontmake_failed e])
  | _ => if is_Exception e then Ok (log ++ [Error_processing e])
         else Raise e
  end.

Module Inspector.
(** [{"Instance": instance_name, "Width": width}] *)
Record row : Type := { Instance : string; Width : Z }.

(** The [for otf_path in otf_files] loop; the rows appended before an
    exception stay in [results]. *)
Fixpoint measure_all (otf_files : list otf_file) (results : list row)
    (log : list log_record) : list row * list log_record * option exn :=
  match otf_files with
  | [] => (results, log, None)
  | otf :: otf_files' =>
      let instance_name := otf_stem otf in
      let log := log ++ [Info_processing instance_name] in
      match otf_measure otf with
      | Raise e => (results, log, Some e)
      | Ok width =>
          measure_all otf_files'
            (results ++ [{| Instance := instance_name; Width := width |}])
            (log ++ [Info_width instance_name width])
      end
  end.

Definition process_instances_with_harfbuzz (env : environment)
  : result (list row * list log_record) :=
  _ ← env_mkdir env ;
  let results := [] in
  let log := [Info_generating] in
  match subprocess_run_check (env_fontmake env) with
  | Raise e => log ← handle e log ; Ok (results, log)
  | Ok _ =>
      let otf_files := env_otf_files env in
      match otf_files with
      | [] => Ok (results, log ++ [Error_no_otf])
      | _ =>
          let log := log ++ [Info_generated (length otf_files)] in
          match measure_all otf_files results log with
          | (results, log, None) => Ok (results, log)
          | (results, log, Some e) => log ← handle e log ; Ok (results, log)
          end
      end
  end.
End Inspector.

Module Inspector2.
(** A value of a result row. *)
Inductive value : Type :=
  | VStr (s : string)
  | VInt (n : Z)
  | VFloat (q : Q).

(** What [extract_axes_from_otf] returns: axis tags mapped to [None] and
    instance names mapped to their coordinates. *)
Abbreviation axes_dict := (gmap (option string) (option (gmap string Q))).

(** [instance.coordinates[i]] for a position [i]: the keys of
    [coordinates] are axis tags, so an integer is never among them and the
    subscription raises [KeyError]. *)
Definition coordinates_at (coordinates : gmap string Q) (i : nat)
  : result Q := Raise (KeyError_int i).

(** [{axis.axisTag: instance.coordinates[i] for i, axis in enumerate(axes)}] *)
Fixpoint instance_coordinates (coordinates : gmap string Q) (i : nat)
    (tags : list string) (d : gmap string Q) : result (gmap string Q) :=
  match tags with
  | [] => Ok d
  | tag :: tags' =>
      v ← coordinates_at coordinates i ;
      instance_coordinates coordinates (S i) tags' (<[tag := v]> d)
  end.

(** [for instance in ttfont['fvar'].instances]; the entries stored before
    an exception stay in [axes]. *)
Fixpoint extract_instances (tags : list string)
    (instances : list named_instance) (axes : axes_dict)
  : axes_dict * option exn :=
  match instances with
  | [] => (axes, None)
  | instance :: instances' =>
      match ni_name instance with
      | Raise e => (axes, Some e)
      | Ok instance_name =>
          match instance_coordinates (ni_coordinates instance) 0 tags ∅ with
          | Raise e => (axes, Some e)
          | Ok instance_axes =>
              extract_instances tags instances'
                (<[instance_name := Some instance_axes]> axes)
          end
      end
  end.

Definition extract_axes_from_otf (otf : otf_file)
  : result (axes_dict * list log_record) :=
  let caught axes e :=
    if is_Exception e then Ok (axes, [Warning_extract e]) else Raise e in
  match otf_ttfont otf with
  | Raise e => caught ∅ e
  | Ok None => Ok (∅, [])
  | Ok (Some fvar) =>
      let axes : axes_dict :=
        foldl (fun axes tag => <[Some tag := None]> axes) ∅
              (fvar_axes fvar) in
      match extract_instances (fvar_axes fvar) (fvar_instances fvar) axes with
      | (axes, None) => Ok (axes, [])
      | (axes, Some e) => caught axes e
      end
  end.

(** [axes_data.get(instance_name, {})], on which [.keys()] is called
    next: a stored [None] has no such method. *)
Definition get_instance_axes (axes_data : axes_dict) (instance_name : string)
  : result (gmap string Q) :=
  match axes_data !! Some instance_name with
  | None => Ok ∅
  | Some (Some instance_axes) => Ok instance_axes
  | Some None => Raise AttributeError
  end.

(** [instance_axes.get(axis, "-")] *)
Definition axis_cell (instance_axes : gmap string Q) (axis : string)
  : value :=
  match instance_axes !! axis with
  | Some v => VFloat v
  | None => VStr "-"
  end.

Definition build_row (text instance_name : string) (all_axes : gset string)
    (instance_axes : gmap string Q) (width : Z) : gmap string value :=
  let result : gmap string value := {[ "Instance" := VStr instance_name ]} in
  let result :=
    foldl (fun result axis => <[axis := axis_cell instance_axes axis]> result)
          result (elements all_axes) in
  <[text +:+ " Width" := VInt width]> result.

Record loop_state : Type := {
  results : list (gmap string value);
  all_axes : gset string;
  log : list log_record
}.

Fixpoint measure_all (text : string) (otf_files : list otf_file)
    (st : loop_state) : loop_state * option exn :=
  match otf_files with
  | [] => (st, None)
  | otf :: otf_files' =>
      let instance_name := otf_stem otf in
      let log := log st ++ [Info_processing instance_name] in
      let abort log e :=
        ({| results := results st; all_axes := all_axes st; log := log |},
         Some e) in
      match otf_measure otf with
      | Raise e => abort log e
      | Ok width =>
          let log := log ++ [Info_width instance_name width] in
          match extract_axes_from_otf otf with
          | Raise e => abort log e
          | Ok (axes_data, warnings) =>
              let log := log ++ warnings in
              match get_instance_axes axes_data instance_name with
              | Raise e => abort log e
              | Ok instance_axes =>
                  let all_axes := all_axes st ∪ dom instance_axes in
                  let result :=
                    build_row text instance_name all_axes instance_axes
                              width in
                  measure_all text otf_files'
                    {| results := results st ++ [result];
                       all_axes := all_axes;
                       log := log |}
              end
          end
      end
  end.

Definition sorted (all_axes : gset string) : list string :=
  merge_sort (fun a b => Is_true (String.leb a b)) (elements all_axes).

Definition process_instances_with_harfbuzz (env : environment)
    (text : string)
  : result (list (gmap string value) * list string * list log_record) :=
  _ ← env_mkdir env ;
  let st := {| results := []; all_axes := ∅; log := [Info_generating] |} in
  let finish (st : loop_state) (e : option exn) :=
    match e with
    | None => Ok (results st, sorted (all_axes st), log st)
    | Some e =>
        log ← handle e (log st) ;
        Ok (results st, sorted (all_axes st), log)
    end in
  match subprocess_run_check (env_fontmake env) with
  | Raise e => finish st (Some e)
  | Ok _ =>
      let otf_files := env_otf_files env in
      match otf_files with
      | [] => Ok (results st, [], log st ++ [Error_no_otf])
      | _ =>
          let st :=
            {| results := results st; all_axes := all_axes st;
               log := log st ++ [Info_generated (length otf_files)] |} in
          let '(st, e) := measure_all text otf_files st in
          finish st e
      end
  end.
End Inspector2.

(** ** Well-formed rows

    A row on which building the style lookup does not raise: it has an
    [Instance] field, no surplus fields, and every other non-empty field is
    accepted by [float]. *)

Definition numeric_cell (float : string → option Q)
    (kv : string * option string) : Prop :=
  match kv with
  | (k, Some v) => k ≠ "Instance" → v ≠ "" → is_Some (float v)
  | (_, None) => True
  end.

Definition well_formed_row (float : string → option Q) (row : row_dict)
  : Prop :=
  (∃ s, dict_get "Instance" (fields row) = Some (Some s))
  ∧ rest row = None
  ∧ Forall (numeric_cell float) (fields row).

(** ** Sample inputs

    A fragment of [float] that reads unsigned decimal integers, for running
    the model on sample files. *)

Definition digit_of (c : ascii) : option Z :=
  let n := nat_of_ascii c in
  if (48 <=? n)%nat && (n <=? 57)%nat then Some (Z.of_nat (n - 48)) else None.

Fixpoint parse_digits (s : string) (acc : Z) : option Z :=
  match s with
  | "" => Some acc
  | String c s' =>
      match digit_of c with
      | Some d => parse_digits s' (10 * acc + d)%Z
      | None => None
      end
  end.

Definition float_of_digits (s : string) : option Q :=
  match s with
  | "" => None
  | _ => inject_Z <$> parse_digits s 0
  end.

(** The mapping of the specification's scenario: header
    [Instance,Weight-e,Width] and the row [Bold,100,200]. *)
Definition sample_header : list string := ["Instance"; "Weight-e"; "Width"].
Definition sample_csv : list (list string) :=
  [sample_header; ["Bold"; "100"; "200"]].


(** A document with one axis, one master and two instances. *)
Definition sample_doc : DesignSpaceDocument :=
  {| axes := [{| axis_name := "Weight"; axis_tag := "wght";
                 axis_minimum := 100; axis_maximum := 900;
                 axis_default := 100 |}];
     sources := [{| src_filename := "Crispy-Regular.ufo";
                    src_name := Some "Crispy-Regular";
                    src_familyName := Some "Crispy";
                    src_styleName := Some "Regular";
                    src_location := {[ "Weight" := 100%Q ]} |}];
     instances := [{| inst_styleName := Some "Bold";
                      inst_location := Some {[ "Weight" := 700%Q ]} |};
                   {| inst_styleName := Some "Light";
                      inst_location := None |}] |}.

Definition sample_axis_minmax : gmap string minmax :=
  {[ "Weight-e" := {| mm_min := 100; mm_max := 300 |} ]}.

(** A mapping with a row whose [Instance] cell is blank. *)
Definition blank_name_csv : list (list string) :=
  [["Instance"; "Weight-e"]; [""; "100"]; ["Bold"; "300"]].

Definition unnamed_instance : InstanceDescriptor :=
  {| inst_styleName := Some ""; inst_location := None |}.

(** File systems for the sample document: its master exists; or the master
    is missing while a copy from an earlier run is still there. *)
Definition sample_fs : gset string := {[ "master_ufo/Crispy-Regular.ufo" ]}.
Definition stale_fs : gset string :=
  {[ "master_ufo/Crispy-Regular-Weight-eMax.ufo" ]}.

Definition sample_source : SourceDescriptor :=
  {| src_filename := "Crispy-Regular.ufo";
     src_name := Some "Crispy-Regular";
     src_familyName := Some "Crispy";
     src_styleName := Some "Regular";
     src_location := {[ "Weight" := 100%Q ]} |}.

(** A stand-in for [os.path.relpath] from [master_ufo]. *)
Definition sample_relpath (path start : string) : string :=
  str_drop (S (String.length start)) path.

(** The coordinates that the sources of a document have on an axis, in
    source order. *)
Definition source_coordinates (doc : DesignSpaceDocument) (axis : string)
  : list Q :=
  omap (fun source => src_location source !! axis) (sources doc).

(** What one source does to the running minimum of an axis. *)
Definition min_step (source : SourceDescriptor) (axis : string)
    (m : option pyfloat) : option pyfloat :=
  match src_location source !! axis with
  | Some v => (fun m => min_with m v) <$> m
  | None => m
  end.

(** The [<axis>] elements as written for the sample document, and a
    rendering of floats for it. *)
Definition sample_axis_elems : list axis_elem :=
  [{| elem_name := Some "Weight"; elem_default := Some "100";
      elem_attrs := [("tag", "wght"); ("minimum", "100");
                     ("maximum", "900")] |}].

Definition sample_str (m : pyfloat) : string :=
  match m with
  | Inf => "inf"
  | Finite q => if Qeq_bool q 100 then "100.0" else "?"
  end.

(** A run in which [fontmake] exits with status 1. *)
Definition failed_build : environment :=
  {| env_mkdir := Ok (); env_fontmake := Ok 1%Z; env_otf_files := [] |}.

(** A run that produces two binaries: the first has no [fvar] table, the
    second names an instance after its file with [wght] = 700. *)
Definition static_otf : otf_file :=
  {| otf_stem := "Crispy-Regular";
     otf_measure := Ok 600%Z;
     otf_ttfont := Ok None |}.

Definition variable_otf : otf_file :=
  {| otf_stem := "Crispy-Bold";
     otf_measure := Ok 640%Z;
     otf_ttfont :=
       Ok (Some {| fvar_axes := ["wght"];
                   fvar_instances :=
                     [{| ni_name := Ok (Some "Crispy-Bold");
                         ni_coordinates := {[ "wght" := 700%Q ]} |}] |}) |}.

Definition mixed_build : environment :=
  {| env_mkdir := Ok (); env_fontmake := Ok 0%Z;
     env_otf_files := [static_otf; variable_otf] |}.

(** What discovery returns for the sample mapping. *)
Definition sample_bounds_found : gmap string minmax :=
  {[ "Weight-e" := {| mm_min := 100; mm_max := 100 |} ]}.
Definition sample_style_lookup : gmap string (gmap string Q) :=
  {[ "Bold" := {[ "Weight-e" := 100%Q; "Width" := 200%Q ]} ]}.
Definition sample_rows : list row_dict :=
  DictReader_rows sample_header [["Bold"; "100"; "200"]].

(** ** [main]

    The passes in the order in which [main] runs them.  The document that
    [DesignSpaceDocument.fromfile] has read and the file system are inputs;
    [write] stands for [save_designspace] followed by the lookup of the
    [axes/axis] elements in the file it wrote, on which the last pass
    works. *)

Section Main.
Variable float : string → option Q.
Variable relpath : string → string → string.
Variable str : pyfloat → string.
Variable write : DesignSpaceDocument → list axis_elem.

End Main.


(** A run in which shaping the second binary is interrupted from the
    keyboard. *)
Definition interrupted_build : environment :=
  {| env_mkdir := Ok (); env_fontmake := Ok 0%Z;
     env_otf_files :=
       [static_otf;
        {| otf_stem := "Crispy-Bold";
           otf_measure := Raise KeyboardInterrupt;
           otf_ttfont := Ok None |}] |}.

(** * Properties *)

(** ** Results and loops *)

Lemma bind_Ok {A B} (r : result A) (k : A → result B) (b : B) :
  r ≫= k = Ok b ↔ ∃ a, r = Ok a ∧ k a = Ok b.
Proof.
  destruct r as [a|e]; simpl; split.
  - intros H. by exists a.
  - by intros (a' & [= ->] & H).
  - intros [=].
  - by intros (a' & [=] & _).
Qed.

Lemma for_each_app {A S} (body : A → S → result S) (l1 l2 : list A) (s : S) :
  for_each body (l1 ++ l2) s
  = for_each body l1 s ≫= for_each body l2.
Proof.
  revert s. induction l1 as [|x l1 IH]; intros s; simpl; [done|].
  destruct (body x s) as [s'|e]; simpl; [apply IH | done].
Qed.

Lemma for_each_cons {A S} (body : A → S → result S) (x : A) (l : list A)
    (s : S) :
  for_each body (x :: l) s = body x s ≫= for_each body l.
Proof. done. Qed.

Lemma omap_cons {A B} (f : A → option B) (x : A) (l : list A) :
  omap f (x :: l)
  = match f x with Some y => y :: omap f l | None => omap f l end.
Proof. done. Qed.

Lemma filter_none {A} (P : A → Prop) `{∀ x, Decision (P x)} (l : list A) :
  (∀ x, x ∈ l → ¬ P x) → filter P l = [].
Proof.
  induction l as [|x l IH]; intros Hnone; [done|].
  rewrite filter_cons, decide_False by (apply Hnone; left).
  apply IH. intros y Hy. apply Hnone. by right.
Qed.

Lemma getitem_Some {V} (d : gmap string V) (k : string) (v : V) :
  d !! k = Some v → getitem d k = Ok v.
Proof. unfold getitem. by intros ->. Qed.

(** ** Substrings *)

Lemma prefix_spec (p s : string) :
  String.prefix p s = true ↔ ∃ t, s = p +:+ t.
Proof.
  revert s. induction p as [|c p IH]; intros s.
  - destruct s; simpl; (split; [intros _; by eexists | done]).
  - destruct s as [|c' s]; simpl.
    + split; [done | by intros (t & [=])].
    + destruct (ascii_dec c c') as [->|Hne].
      * rewrite IH. split; intros (t & Ht); exists t; [by rewrite Ht|].
        by injection Ht.
      * split; [done | intros (t & [= Hc _]); by symmetry in Hc].
Qed.

Lemma contains_unfold (needle hay : string) :
  contains needle hay
  = if String.prefix needle hay then true
    else match hay with
         | "" => false
         | String _ hay' => contains needle hay'
         end.
Proof. by destruct hay. Qed.

Lemma contains_spec (needle hay : string) :
  contains needle hay = true ↔ ∃ pre post, hay = pre +:+ needle +:+ post.
Proof.
  induction hay as [|c hay IH]; rewrite contains_unfold.
  - destruct (String.prefix needle "") eqn:Hp.
    + apply prefix_spec in Hp as (t & Ht).
      split; [intros _; by exists "", t | done].
    + split; [done|]. intros (pre & post & H).
      destruct pre as [|? ?]; simpl in H; [|done].
      assert (String.prefix needle "" = true) as Hp'
        by (apply prefix_spec; by exists post).
      congruence.
  - destruct (String.prefix needle (String c hay)) eqn:Hp.
    + apply prefix_spec in Hp as (t & Ht).
      split; [intros _; by exists "", t | done].
    + rewrite IH. split.
      * intros (pre & post & ->). by exists (String c pre), post.
      * intros (pre & post & H). destruct pre as [|c' pre]; simpl in H.
        -- assert (String.prefix needle (String c hay) = true) as Hp'
             by (apply prefix_spec; by exists post).
           congruence.
        -- injection H as _ ->. by exists pre, post.
Qed.

(** ** Discovery of the extension axes *)

Lemma elem_of_e_axes_of (fieldnames : list string) (h : string) :
  h ∈ e_axes_of fieldnames
  ↔ h ∈ fieldnames ∧ ∃ pre post, h = pre +:+ "-e" +:+ post.
Proof.
  unfold e_axes_of. rewrite list_elem_of_filter, contains_spec. tauto.
Qed.

Lemma e_axes_of_sublist (fieldnames : list string) :
  e_axes_of fieldnames `sublist_of` fieldnames.
Proof. apply sublist_filter. Qed.

Lemma e_axes_of_occurrences (fieldnames : list string) (h : string) :
  contains "-e" h = true →
  length (filter (fun x => x = h) (e_axes_of fieldnames))
  = length (filter (fun x => x = h) fieldnames).
Proof.
  intros Hh. unfold e_axes_of.
  induction fieldnames as [|x l IH]; [done|].
  rewrite !filter_cons.
  destruct (decide (x = h)) as [->|Hne].
  - rewrite decide_True by done. rewrite filter_cons, decide_True by done.
    simpl. by rewrite IH.
  - destruct (decide (contains "-e" x = true)); [|done].
    by rewrite filter_cons, decide_False.
Qed.

Lemma get_e_axes_and_lookup_e_axes float csvfile fieldnames r :
  DictReader_fieldnames csvfile = Some fieldnames →
  get_e_axes_and_lookup float csvfile = Ok r →
  r.1.1.1 = e_axes_of fieldnames.
Proof.
  unfold get_e_axes_and_lookup. intros -> H.
  apply bind_Ok in H as (sl & _ & H).
  apply bind_Ok in H as (mm & _ & H).
  by injection H as <-.
Qed.

(** C6.  For a CSV file with a header row, the discovered extension axes
    are exactly the header columns whose name contains ["-e"]: the same
    names, each as often as the header has it, in header order; and this is
    the list that discovery returns. *)
Theorem discovered_axes_are_marker_columns
    (float : string → option Q) (csvfile : list (list string))
    (fieldnames : list string) :
  DictReader_fieldnames csvfile = Some fieldnames →
  (∀ h, h ∈ e_axes_of fieldnames
        ↔ h ∈ fieldnames ∧ ∃ pre post, h = pre +:+ "-e" +:+ post)
  ∧ (∀ h, (∃ pre post, h = pre +:+ "-e" +:+ post) →
          length (filter (fun x => x = h) (e_axes_of fieldnames))
          = length (filter (fun x => x = h) fieldnames))
  ∧ (NoDup fieldnames → NoDup (e_axes_of fieldnames))
  ∧ e_axes_of fieldnames `sublist_of` fieldnames
  ∧ (∀ e_axes axis_minmax style_lookup rows,
        get_e_axes_and_lookup float csvfile
        = Ok (e_axes, axis_minmax, style_lookup, rows) →
        e_axes = e_axes_of fieldnames).
Proof.
  intros Hhead. split; [|split; [|split; [|split]]].
  - apply elem_of_e_axes_of.
  - intros h Hh. apply e_axes_of_occurrences. by apply contains_spec.
  - apply NoDup_filter.
  - apply e_axes_of_sublist.
  - intros e_axes mm sl rows H.
    by apply (get_e_axes_and_lookup_e_axes _ _ _ _ Hhead) in H.
Qed.

Lemma discovered_axes_are_marker_columns_witness :
  DictReader_fieldnames sample_csv = Some sample_header
  ∧ e_axes_of sample_header `sublist_of` sample_header.
Proof.
  split; [reflexivity|].
  destruct (discovered_axes_are_marker_columns float_of_digits sample_csv
              sample_header eq_refl) as (_ & _ & _ & H & _).
  exact H.
Defined.

(** The scenario of the specification: the one discovered axis is
    [Weight-e], with minimum and maximum 100. *)
Example sample_discovery :
  ∃ rows,
    get_e_axes_and_lookup float_of_digits sample_csv
    = Ok (["Weight-e"],
          {[ "Weight-e" := {| mm_min := 100; mm_max := 100 |} ]},
          {[ "Bold" := {[ "Weight-e" := 100%Q; "Width" := 200%Q ]} ]},
          rows).
Proof. eexists. vm_compute. reflexivity. Qed.

(** ** Minimum and maximum of a column *)

Lemma Qltb_true (x y : Q) : Qltb x y = true → (x <= y)%Q.
Proof.
  unfold Qltb. intros H%negb_true_iff.
  apply Qlt_le_weak, Qnot_le_lt. intros Hle%Qle_bool_iff. congruence.
Qed.

Lemma Qltb_false (x y : Q) : Qltb x y = false → (y <= x)%Q.
Proof. unfold Qltb. intros H%negb_false_iff. by apply Qle_bool_iff. Qed.

Lemma foldl_min_spec (v : Q) (vs : list Q) :
  let m := foldl (fun m x => if Qltb x m then x else m) v vs in
  m ∈ v :: vs ∧ ∀ x, x ∈ v :: vs → (m <= x)%Q.
Proof.
  revert v. induction vs as [|y vs IH]; intros v; simpl.
  - split; [left|]. intros x ->%list_elem_of_singleton. apply Qle_refl.
  - destruct (IH (if Qltb y v then y else v)) as [Hin Hle].
    split.
    + apply elem_of_cons in Hin as [Hin|Hin]; [|by do 2 right].
      rewrite Hin. destruct (Qltb y v); [right; left | left].
    + intros x Hx.
      assert (Hm := Hle _ (list_elem_of_here _ _)).
      destruct (Qltb y v) eqn:Hlt.
      * apply elem_of_cons in Hx as [->|Hx].
        -- eapply Qle_trans; [exact Hm | by apply Qltb_true].
        -- apply Hle. done.
      * apply elem_of_cons in Hx as [->|Hx]; [done|].
        apply elem_of_cons in Hx as [->|Hx].
        -- eapply Qle_trans; [exact Hm | by apply Qltb_false].
        -- apply Hle. by right.
Qed.

Lemma foldl_max_spec (v : Q) (vs : list Q) :
  let m := foldl (fun m x => if Qltb m x then x else m) v vs in
  m ∈ v :: vs ∧ ∀ x, x ∈ v :: vs → (x <= m)%Q.
Proof.
  revert v. induction vs as [|y vs IH]; intros v; simpl.
  - split; [left|]. intros x ->%list_elem_of_singleton. apply Qle_refl.
  - destruct (IH (if Qltb v y then y else v)) as [Hin Hle].
    split.
    + apply elem_of_cons in Hin as [Hin|Hin]; [|by do 2 right].
      rewrite Hin. destruct (Qltb v y); [right; left | left].
    + intros x Hx.
      assert (Hm := Hle _ (list_elem_of_here _ _)).
      destruct (Qltb v y) eqn:Hlt.
      * apply elem_of_cons in Hx as [->|Hx].
        -- eapply Qle_trans; [by apply Qltb_true | exact Hm].
        -- apply Hle. done.
      * apply elem_of_cons in Hx as [->|Hx]; [done|].
        apply elem_of_cons in Hx as [->|Hx].
        -- eapply Qle_trans; [by apply Qltb_false | exact Hm].
        -- apply Hle. by right.
Qed.

Lemma py_min_spec (values : list Q) (m : Q) :
  py_min values = Ok m → m ∈ values ∧ ∀ x, x ∈ values → (m <= x)%Q.
Proof.
  destruct values as [|v vs]; [done|]. intros [= <-]. apply foldl_min_spec.
Qed.

Lemma py_max_spec (values : list Q) (m : Q) :
  py_max values = Ok m → m ∈ values ∧ ∀ x, x ∈ values → (x <= m)%Q.
Proof.
  destruct values as [|v vs]; [done|]. intros [= <-]. apply foldl_max_spec.
Qed.

Lemma py_min_nonempty (values : list Q) :
  values ≠ [] → ∃ m, py_min values = Ok m.
Proof. destruct values; [done|]. by eexists. Qed.

Lemma py_max_nonempty (values : list Q) :
  values ≠ [] → ∃ m, py_max values = Ok m.
Proof. destruct values; [done|]. by eexists. Qed.

Lemma map_result_Ok {A B} (f : A → result B) (l : list A) (l' : list B) :
  map_result f l = Ok l' ↔ Forall2 (fun x y => f x = Ok y) l l'.
Proof.
  revert l'. induction l as [|x l IH]; intros l'; simpl.
  - split; [intros [= <-]; constructor | by intros ->%Forall2_nil_inv_l].
  - split.
    + intros (y & Hy & H)%bind_Ok. apply bind_Ok in H as (ys & Hys & [= <-]).
      constructor; [done | by apply IH].
    + intros (y & ys & Hy & Hys & ->)%Forall2_cons_inv_l.
      apply IH in Hys. rewrite Hy. simpl. by rewrite Hys.
Qed.

(** ** Discovery of the bounds *)

Lemma dict_get_elem_of {K V} `{EqDecision K} (k : K) (v : V)
    (d : list (K * V)) :
  dict_get k d = Some v → (k, v) ∈ d.
Proof.
  induction d as [|[k' v'] d IH]; simpl; [done|].
  destruct (decide (k' = k)) as [->|Hne].
  - intros [= ->]. left.
  - intros H. right. by apply IH.
Qed.

Lemma row_value_Some (axis : string) (row : row_dict) (v : string) :
  row_value axis row = Some v → (axis, Some v) ∈ fields row ∧ v ≠ "".
Proof.
  unfold row_value.
  destruct (dict_get axis (fields row)) as [[s|]|] eqn:Hget; [|done..].
  destruct (String.eqb s "") eqn:Heq; [done|].
  intros [= ->]. split; [by apply dict_get_elem_of|].
  by apply String.eqb_neq.
Qed.

Lemma e_axis_not_Instance (fieldnames : list string) (axis : string) :
  axis ∈ e_axes_of fieldnames → axis ≠ "Instance".
Proof.
  unfold e_axes_of. intros [H _]%list_elem_of_filter ->. done.
Qed.

Section DiscoveryFacts.
Variable float : string → option Q.

Lemma lookup_items_total (items : list (string * option string))
    (sub : gmap string Q) :
  Forall (numeric_cell float) items →
  ∃ sub', foldl (fun acc kv => sub ← acc ; lookup_item float sub kv)
                (Ok sub) items = Ok sub'.
Proof.
  intros Hwf. revert sub.
  induction Hwf as [|[k [v|]] items Hcell _ IH]; intros sub; simpl.
  - by eexists.
  - destruct (bool_decide (k ≠ "Instance")) eqn:Hk; simpl; [|apply IH].
    destruct (String.eqb v "") eqn:Hv; simpl; [apply IH|].
    apply bool_decide_eq_true in Hk. apply String.eqb_neq in Hv.
    unfold float_str.
    destruct (float v) as [q|] eqn:Hq;
      [|destruct (Hcell Hk Hv); congruence].
    simpl. apply IH.
  - apply IH.
Qed.

Lemma build_style_lookup_total (rows : list row_dict)
    (acc : gmap string (gmap string Q)) :
  Forall (well_formed_row float) rows →
  ∃ style_lookup,
    for_each (fun row style_lookup =>
                style ← row_style row ;
                sub ← row_lookup float row ;
                Ok (<[style := sub]> style_lookup))
             rows acc = Ok style_lookup.
Proof.
  intros Hwf. revert acc.
  induction Hwf as [|row rows ([s Hs] & Hrest & Hcells) _ IH];
    intros acc; simpl; [by eexists|].
  unfold row_style, row_lookup. rewrite Hs, Hrest. simpl.
  destruct (lookup_items_total (fields row) ∅ Hcells) as [sub ->].
  simpl. apply IH.
Qed.

Lemma column_values_total (fieldnames : list string) (axis : string)
    (rows : list row_dict) :
  axis ∈ e_axes_of fieldnames →
  Forall (well_formed_row float) rows →
  ∃ values, column_values float axis rows = Ok values.
Proof.
  intros Haxis%e_axis_not_Instance Hwf. unfold column_values.
  cut (∃ values, Forall2 (fun x y => float_str float x = Ok y)
                         (omap (row_value axis) rows) values).
  { intros [values H]. exists values. by apply map_result_Ok. }
  induction Hwf as [|row rows (_ & _ & Hcells) _ [values IH]];
    simpl; [exists []; constructor|].
  destruct (row_value axis row) as [v|] eqn:Hv; [|by eexists].
  apply row_value_Some in Hv as [Hin Hne].
  rewrite Forall_forall in Hcells.
  destruct (Hcells _ Hin Haxis Hne) as [q Hq].
  exists (q :: values). constructor; [|done].
  unfold float_str. by rewrite Hq.
Qed.

Lemma column_values_nonempty (axis : string) (rows : list row_dict)
    (values : list Q) :
  column_values float axis rows = Ok values →
  (∃ row, row ∈ rows ∧ is_Some (row_value axis row)) →
  values ≠ [].
Proof.
  unfold column_values. intros H%map_result_Ok (row & Hrow & [v Hv]) ->.
  apply Forall2_nil_inv_r in H.
  assert (v ∈ omap (row_value axis) rows) as Hin
    by (apply list_elem_of_omap; eauto).
  rewrite H in Hin. by apply not_elem_of_nil in Hin.
Qed.

Lemma build_axis_minmax_loop (rows : list row_dict) (l : list string)
    (acc axis_minmax : gmap string minmax) :
  for_each (fun axis axis_minmax =>
              values ← column_values float axis rows ;
              mn ← py_min values ;
              mx ← py_max values ;
              Ok (<[axis := {| mm_min := mn; mm_max := mx |}]> axis_minmax))
           l acc = Ok axis_minmax →
  ∀ axis,
    (axis ∈ l →
     ∃ mm values, axis_minmax !! axis = Some mm
                  ∧ column_values float axis rows = Ok values
                  ∧ py_min values = Ok (mm_min mm)
                  ∧ py_max values = Ok (mm_max mm))
    ∧ (axis ∉ l → axis_minmax !! axis = acc !! axis).
Proof.
  revert acc. induction l as [|x l IH]; intros acc; simpl.
  - intros [= <-] axis. split; [by intros ?%not_elem_of_nil | done].
  - intros (acc' & Hbody & Hrest)%bind_Ok.
    apply bind_Ok in Hbody as (values & Hvalues & Hbody).
    apply bind_Ok in Hbody as (mn & Hmn & Hbody).
    apply bind_Ok in Hbody as (mx & Hmx & [= <-]).
    intros axis. destruct (IH _ Hrest axis) as [Hin Hout]. split.
    + intros Haxis. destruct (decide (axis ∈ l)) as [?|Hnotin]; [auto|].
      apply elem_of_cons in Haxis as [->|?]; [|done].
      exists {| mm_min := mn; mm_max := mx |}, values.
      by rewrite (Hout Hnotin), lookup_insert_eq.
    + intros [Hne Hnotin]%not_elem_of_cons.
      by rewrite (Hout Hnotin), lookup_insert_ne.
Qed.

Lemma build_axis_minmax_total (rows : list row_dict) (l : list string)
    (acc : gmap string minmax) :
  (∀ axis, axis ∈ l →
     ∃ values, column_values float axis rows = Ok values ∧ values ≠ []) →
  ∃ axis_minmax,
    for_each (fun axis axis_minmax =>
                values ← column_values float axis rows ;
                mn ← py_min values ;
                mx ← py_max values ;
                Ok (<[axis := {| mm_min := mn; mm_max := mx |}]>
                      axis_minmax))
             l acc = Ok axis_minmax.
Proof.
  revert acc. induction l as [|x l IH]; intros acc Hcols; simpl.
  - by eexists.
  - destruct (Hcols x) as (values & -> & Hne); [left|]. simpl.
    destruct (py_min_nonempty _ Hne) as [mn ->]. simpl.
    destruct (py_max_nonempty _ Hne) as [mx ->]. simpl.
    apply IH. intros axis Haxis. apply Hcols. by right.
Qed.
End DiscoveryFacts.




(** ** Axis merge *)

Section AxisMerge.
Variable existing : list string.
Variable axis_minmax : gmap string minmax.

Lemma ensure_axis_absent (axis : string) (mm : minmax)
    (doc : DesignSpaceDocument) :
  axis ∉ existing → axis_minmax !! axis = Some mm →
  ensure_axis existing axis_minmax axis doc
  = Ok (append_axis doc (new_axis axis mm)).
Proof.
  intros Hnot Hmm. unfold ensure_axis.
  by rewrite bool_decide_eq_true_2, (getitem_Some _ _ _ Hmm).
Qed.

Lemma ensure_axis_present (axis : string) (doc : DesignSpaceDocument) :
  axis ∈ existing → ensure_axis existing axis_minmax axis doc = Ok doc.
Proof.
  intros Hin. unfold ensure_axis. rewrite bool_decide_eq_false_2; [done|].
  by intros Hnot.
Qed.

Lemma ensure_loop_appends (l : list string) (doc : DesignSpaceDocument) :
  (∀ axis, axis ∈ l → is_Some (axis_minmax !! axis)) →
  for_each (ensure_axis existing axis_minmax) l doc
  = Ok (with_axes doc (axes doc ++ axes_to_add existing l axis_minmax)).
Proof.
  revert doc. induction l as [|x l IH]; intros doc Hmm.
  - simpl. unfold with_axes. rewrite app_nil_r. by destruct doc.
  - rewrite for_each_cons. unfold axes_to_add.
    rewrite omap_cons. fold (axes_to_add existing l axis_minmax).
    destruct (decide (x ∈ existing)) as [Hin|Hnot].
    + rewrite ensure_axis_present by done.
      rewrite bool_decide_eq_false_2 by (by intros Hnot).
      simpl. apply IH. intros; apply Hmm; by right.
    + destruct (Hmm x) as [mm Hlook]; [left|].
      rewrite (ensure_axis_absent _ _ _ Hnot Hlook).
      rewrite bool_decide_eq_true_2, Hlook by done. simpl.
      rewrite IH by (intros; apply Hmm; by right).
      unfold with_axes. simpl. by rewrite <- app_assoc.
Qed.

Lemma ensure_loop_skips (l : list string) (doc : DesignSpaceDocument) :
  (∀ axis, axis ∈ l → axis ∈ existing) →
  for_each (ensure_axis existing axis_minmax) l doc = Ok doc.
Proof.
  induction l as [|x l IH]; intros Hin; [done|].
  rewrite for_each_cons, ensure_axis_present by (apply Hin; left).
  simpl. apply IH. intros; apply Hin; by right.
Qed.

Lemma elem_of_axes_to_add (l : list string) (ad : AxisDescriptor) :
  ad ∈ axes_to_add existing l axis_minmax
  ↔ ∃ mm, axis_name ad ∈ l ∧ (axis_name ad ∉ existing)
          ∧ axis_minmax !! (axis_name ad) = Some mm
          ∧ ad = new_axis (axis_name ad) mm.
Proof.
  unfold axes_to_add. rewrite list_elem_of_omap. split.
  - intros (axis & Hin & H). case_bool_decide; [|done].
    destruct (axis_minmax !! axis) as [mm|] eqn:Hmm; [|done].
    injection H as <-. by exists mm.
  - intros (mm & Hin & Hnot & Hmm & Had). exists (axis_name ad).
    split; [done|]. rewrite bool_decide_eq_true_2 by done.
    rewrite Hmm. simpl. by rewrite <- Had.
Qed.

Lemma axes_to_add_named (l : list string) (axis : string) (mm : minmax) :
  NoDup l → axis ∈ l → axis ∉ existing →
  axis_minmax !! axis = Some mm →
  filter (fun ad => axis_name ad = axis) (axes_to_add existing l axis_minmax)
  = [new_axis axis mm].
Proof.
  intros Hnodup Hin Hnot Hmm.
  induction Hnodup as [|x l Hx Hnodup IH]; [by apply not_elem_of_nil in Hin|].
  assert (∀ l', axis ∉ l' →
            filter (fun ad => axis_name ad = axis)
                   (axes_to_add existing l' axis_minmax) = []) as Hnone.
  { intros l' Hl'. apply filter_none.
    intros ad (m & Had & _)%elem_of_axes_to_add Heq. by rewrite Heq in Had. }
  unfold axes_to_add. rewrite omap_cons.
  fold (axes_to_add existing l axis_minmax).
  destruct (decide (x = axis)) as [->|Hne].
  - rewrite bool_decide_eq_true_2 by done. rewrite Hmm. simpl.
    rewrite filter_cons, decide_True by done. by rewrite Hnone.
  - apply elem_of_cons in Hin as [->|Hin]; [done|].
    destruct (bool_decide (x ∉ existing)); [|by apply IH].
    destruct (axis_minmax !! x); simpl; [|by apply IH].
    rewrite filter_cons, decide_False by done. by apply IH.
Qed.
End AxisMerge.

(** C4.  For a duplicate-free list of discovered axes with bounds, the
    merge returns a document in which the axes present before come first
    and unchanged, followed only by descriptors of discovered axes that
    were not present; each such axis is described exactly once, with the
    discovered minimum and maximum, the first four characters of its name
    as tag and the minimum as default; sources and instances are kept; and
    merging again leaves the document as it is. *)
Theorem ensure_e_axes_merge (doc : DesignSpaceDocument)
    (e_axes : list string) (axis_minmax : gmap string minmax) :
  NoDup e_axes →
  (∀ axis, axis ∈ e_axes → is_Some (axis_minmax !! axis)) →
  ∃ doc',
    ensure_e_axes doc e_axes axis_minmax = Ok doc'
    ∧ sources doc' = sources doc
    ∧ instances doc' = instances doc
    ∧ (∃ added,
         axes doc' = axes doc ++ added
         ∧ ∀ ad, ad ∈ added →
             axis_name ad ∈ e_axes
             ∧ axis_name ad ∉ map axis_name (axes doc))
    ∧ (∀ axis mm,
         axis ∈ e_axes → axis ∉ map axis_name (axes doc) →
         axis_minmax !! axis = Some mm →
         filter (fun ad => axis_name ad = axis) (axes doc')
         = [{| axis_name := axis;
               axis_tag := str_take 4 axis;
               axis_minimum := mm_min mm;
               axis_maximum := mm_max mm;
               axis_default := mm_min mm |}])
    ∧ ensure_e_axes doc' e_axes axis_minmax = Ok doc'.
Proof.
  intros Hnodup Hmm.
  set (existing := map axis_name (axes doc)).
  set (added := axes_to_add existing e_axes axis_minmax).
  exists (with_axes doc (axes doc ++ added)).
  split; [by apply ensure_loop_appends|].
  split; [done|]. split; [done|]. split; [|split].
  - exists added. split; [done|].
    intros ad (mm & Hin & Hnot & _)%elem_of_axes_to_add. done.
  - intros axis mm Hin Hnot Hlook. simpl. rewrite filter_app.
    rewrite (filter_none _ (axes doc)).
    + simpl. by apply axes_to_add_named.
    + intros ad Had Heq. apply Hnot. rewrite <- Heq.
      apply list_elem_of_fmap. by exists ad.
  - unfold ensure_e_axes. apply ensure_loop_skips. intros axis Hin. simpl.
    rewrite map_app. apply elem_of_app.
    destruct (decide (axis ∈ existing)) as [?|Hnot]; [by left|right].
    destruct (Hmm axis Hin) as [mm Hlook].
    apply list_elem_of_fmap. exists (new_axis axis mm). split; [done|].
    apply elem_of_axes_to_add. by exists mm.
Qed.

Lemma ensure_e_axes_merge_witness :
  ∃ doc',
    ensure_e_axes sample_doc ["Weight-e"] sample_axis_minmax = Ok doc'
    ∧ ensure_e_axes doc' ["Weight-e"] sample_axis_minmax = Ok doc'.
Proof.
  destruct (ensure_e_axes_merge sample_doc ["Weight-e"] sample_axis_minmax)
    as (doc' & Hrun & _ & _ & _ & _ & Hagain).
  - apply NoDup_singleton.
  - intros axis ->%list_elem_of_singleton. by eexists.
  - by exists doc'.
Defined.

(** A header that names the same column twice yields the axis twice in
    [e_axes]; the names present are read once, before the loop, so the axis
    is then appended once per occurrence. *)
Example ensure_e_axes_repeated_column :
  ∃ doc',
    ensure_e_axes sample_doc ["Weight-e"; "Weight-e"] sample_axis_minmax
    = Ok doc'
    ∧ map axis_name (axes doc') = ["Weight"; "Weight-e"; "Weight-e"].
Proof. eexists. split; reflexivity. Qed.

(** ** Instance coordinates *)

Lemma map_result_total {A B} (f : A → result B) (l : list A) :
  (∀ x, x ∈ l → ∃ y, f x = Ok y) → ∃ l', map_result f l = Ok l'.
Proof.
  induction l as [|x l IH]; intros Hf; simpl; [by eexists|].
  destruct (Hf x) as [y ->]; [left|].
  destruct IH as [l' ->]; [intros; apply Hf; by right|].
  by eexists.
Qed.

Section InstanceFacts.
Variable axis_minmax : gmap string minmax.
Variable style_lookup : gmap string (gmap string Q).
Variable style_name : option string.

Lemma update_instance_loop (l : list string) (instance : InstanceDescriptor) :
  (∀ axis, axis ∈ l → is_Some (axis_minmax !! axis)) →
  ∃ instance',
    for_each (update_instance_axis axis_minmax style_lookup style_name)
             l instance = Ok instance'
    ∧ inst_styleName instance' = inst_styleName instance
    ∧ ∀ axis,
        (axis ∈ l →
         ∃ mm, axis_minmax !! axis = Some mm
               ∧ coordinate instance' axis
                 = Some (instance_axis_value style_lookup style_name axis
                           ((mm_min mm + mm_max mm) / 2)%Q))
        ∧ (axis ∉ l → coordinate instance' axis = coordinate instance axis).
Proof.
  revert instance. induction l as [|x l IH]; intros instance Hmm.
  - exists instance. split; [done|]. split; [done|]. intros axis.
    split; [by intros ?%not_elem_of_nil | done].
  - destruct (Hmm x) as [mm Hx]; [left|].
    rewrite for_each_cons. unfold update_instance_axis at 2.
    rewrite (getitem_Some _ _ _ Hx). simpl.
    set (v := instance_axis_value _ _ _ _).
    destruct (IH (with_axis_value instance x v))
      as (instance' & Hrun & Hname & Hcoord);
      [intros; apply Hmm; by right|].
    exists instance'. split; [done|]. split; [done|]. intros axis.
    destruct (Hcoord axis) as [Hin Hout]. split.
    + intros Haxis. destruct (decide (axis ∈ l)) as [?|Hnot]; [auto|].
      apply elem_of_cons in Haxis as [->|?]; [|done].
      exists mm. split; [done|]. rewrite (Hout Hnot).
      unfold coordinate. simpl. by rewrite lookup_insert_eq.
    + intros [Hne Hnot]%not_elem_of_cons. rewrite (Hout Hnot).
      unfold coordinate. simpl. rewrite lookup_insert_ne by done.
      by destruct (inst_location instance).
Qed.
End InstanceFacts.

(** C3, as amended.  With bounds for every extension axis, the assignment
    returns; every instance keeps its style name and afterwards has a
    coordinate on every extension axis: the value of the CSV lookup when the
    style name is a non-empty string equal to a lookup key whose row gives a
    value for the axis, and the midpoint [(min + max) / 2] of the bounds
    otherwise; axes and sources are kept. *)
Theorem instances_get_lookup_value_or_midpoint (doc : DesignSpaceDocument)
    (e_axes : list string) (axis_minmax : gmap string minmax)
    (style_lookup : gmap string (gmap string Q)) :
  (∀ axis, axis ∈ e_axes → is_Some (axis_minmax !! axis)) →
  ∃ doc',
    update_instances_with_e_axes doc e_axes axis_minmax style_lookup = Ok doc'
    ∧ axes doc' = axes doc
    ∧ sources doc' = sources doc
    ∧ Forall2
        (fun instance instance' =>
           inst_styleName instance' = inst_styleName instance
           ∧ ∀ axis mm,
               axis ∈ e_axes → axis_minmax !! axis = Some mm →
               (∀ name sub v,
                  inst_styleName instance = Some name → name ≠ "" →
                  style_lookup !! name = Some sub → sub !! axis = Some v →
                  coordinate instance' axis = Some v)
               ∧ (¬ (∃ name sub v,
                        inst_styleName instance = Some name ∧ name ≠ ""
                        ∧ style_lookup !! name = Some sub
                        ∧ sub !! axis = Some v) →
                  coordinate instance' axis
                  = Some ((mm_min mm + mm_max mm) / 2)%Q))
        (instances doc) (instances doc').
Proof.
  intros Hmm.
  destruct (map_result_total
              (update_instance e_axes axis_minmax style_lookup)
              (instances doc)) as [insts Hinsts].
  { intros instance _.
    destruct (update_instance_loop axis_minmax style_lookup
                (inst_styleName instance) e_axes instance Hmm)
      as (instance' & Hrun & _).
    by exists instance'. }
  eexists. split.
  { unfold update_instances_with_e_axes. rewrite Hinsts. reflexivity. }
  split; [done|]. split; [done|]. simpl.
  apply map_result_Ok in Hinsts.
  eapply Forall2_impl; [exact Hinsts|]. clear Hinsts.
  intros instance instance' Hrun.
  destruct (update_instance_loop axis_minmax style_lookup
              (inst_styleName instance) e_axes instance Hmm)
    as (instance'' & Hrun' & Hname & Hcoord).
  unfold update_instance in Hrun. rewrite Hrun' in Hrun.
  injection Hrun as <-. split; [done|].
  intros axis mm Haxis Hlook.
  destruct (Hcoord axis) as [Hin _].
  destruct (Hin Haxis) as (mm' & Hlook' & ->).
  rewrite Hlook in Hlook'. injection Hlook' as <-.
  unfold instance_axis_value, truthy_name. split.
  - intros name sub v -> Hne Hsub Hv.
    apply String.eqb_neq in Hne. by rewrite Hne, Hsub, Hv.
  - intros Hnone.
    destruct (inst_styleName instance) as [name|]; [|done].
    destruct (String.eqb name "") eqn:Hne; [done|].
    apply String.eqb_neq in Hne.
    destruct (style_lookup !! name) as [sub|] eqn:Hsub; [|done].
    destruct (sub !! axis) as [v|] eqn:Hv; [|done].
    destruct Hnone. by exists name, sub, v.
Qed.

Lemma instances_get_lookup_value_or_midpoint_witness :
  ∃ doc',
    update_instances_with_e_axes sample_doc ["Weight-e"] sample_axis_minmax
      {[ "Bold" := {[ "Weight-e" := 250%Q ]} ]} = Ok doc'
    ∧ length (instances doc') = 2%nat.
Proof.
  destruct (instances_get_lookup_value_or_midpoint sample_doc ["Weight-e"]
              sample_axis_minmax {[ "Bold" := {[ "Weight-e" := 250%Q ]} ]})
    as (doc' & Hrun & _ & _ & Hall).
  - intros axis ->%list_elem_of_singleton. by eexists.
  - exists doc'. split; [exact Hrun|].
    by rewrite <- (Forall2_length _ _ _ Hall).
Defined.

(** The sample document under a lookup that knows [Bold] only: [Bold] takes
    the lookup's value, [Light] the midpoint of 100 and 300. *)
Example sample_instances :
  ∃ doc',
    update_instances_with_e_axes sample_doc ["Weight-e"] sample_axis_minmax
      {[ "Bold" := {[ "Weight-e" := 250%Q ]} ]} = Ok doc'
    ∧ map (fun instance => coordinate instance "Weight-e") (instances doc')
      = [Some 250%Q; Some ((100 + 300) / 2)%Q].
Proof. eexists. split; reflexivity. Qed.

(** C3 as stated fails for an empty style name: the lookup built from a
    mapping with a blank [Instance] cell has the key [""] with the value 100
    for [Weight-e], yet an instance whose style name is [""] is given the
    midpoint of 100 and 300. *)
Lemma empty_style_name_is_not_matched :
  ∃ axis_minmax style_lookup rows instance',
    get_e_axes_and_lookup float_of_digits blank_name_csv
    = Ok (["Weight-e"], axis_minmax, style_lookup, rows)
    ∧ style_lookup !! "" = Some {[ "Weight-e" := 100%Q ]}
    ∧ update_instance ["Weight-e"] axis_minmax style_lookup unnamed_instance
      = Ok instance'
    ∧ coordinate instance' "Weight-e" = Some ((100 + 300) / 2)%Q
    ∧ ¬ ((100 + 300) / 2 == 100)%Q.
Proof.
  do 4 eexists. split; [vm_compute; reflexivity|].
  split; [reflexivity|]. split; [reflexivity|]. split; [reflexivity|].
  by intros [=].
Qed.

(** ** Paths *)

Lemma append_cons (c : ascii) (s t : string) :
  String c s +:+ t = String c (s +:+ t).
Proof. done. Qed.

Lemma append_nil_r (s : string) : s +:+ "" = s.
Proof. induction s as [|c s IH]; [done|]. by rewrite append_cons, IH. Qed.

Lemma str_take_drop (n : nat) (s : string) :
  str_take n s +:+ str_drop n s = s.
Proof.
  revert s. induction n as [|n IH]; intros [|c s]; [done..|].
  change (String c (str_take n s +:+ str_drop n s) = String c s).
  by rewrite IH.
Qed.

Lemma length_append (s1 s2 : string) :
  String.length (s1 +:+ s2) = (String.length s1 + String.length s2)%nat.
Proof.
  induction s1 as [|c s1 IH]; [done|].
  rewrite append_cons. simpl. by rewrite IH.
Qed.

Lemma splitext_append (p base ext : string) :
  splitext p = (base, ext) → base +:+ ext = p.
Proof.
  unfold splitext. destruct (rfind "." p) as [dotIndex|].
  - destruct (_ && _); intros [= <- <-].
    + apply str_take_drop.
    + apply append_nil_r.
  - intros [= <- <-]. apply append_nil_r.
Qed.

Lemma rfind_after_last (c : ascii) (s : string) (i : nat) :
  rfind c s = Some i → rfind c (str_drop (S i) s) = None.
Proof.
  revert i. induction s as [|c' s IH]; intros i; simpl; [done|].
  destruct (rfind c s) as [j|] eqn:Hj.
  - intros [= <-]. by apply IH.
  - destruct (Ascii.eqb c' c); [|done]. intros [= <-]. done.
Qed.

Lemma rfind_basename (p : string) : rfind "/" (basename p) = None.
Proof.
  unfold basename. destruct (rfind "/" p) as [i|] eqn:Hi; [|done].
  by apply rfind_after_last.
Qed.

Lemma rfind_None_head (c : ascii) (s : string) :
  rfind c (String c s) ≠ None.
Proof.
  simpl. destruct (rfind c s); [done|]. by rewrite Ascii.eqb_refl.
Qed.

Lemma basename_not_absolute (p : string) :
  starts_with_sep (basename p) = false.
Proof.
  assert (H := rfind_basename p).
  destruct (basename p) as [|c s]; [done|].
  destruct (ascii_dec c "/") as [->|Hne].
  - by apply rfind_None_head in H.
  - simpl. destruct c as [[] [] [] [] [] [] [] []]; try done.
Qed.

Lemma path_join_relative (b : string) :
  starts_with_sep b = false →
  path_join "master_ufo" b = "master_ufo/" +:+ b.
Proof. unfold path_join. by intros ->. Qed.

Lemma starts_with_sep_append (s t : string) :
  starts_with_sep (s +:+ t)
  = match s with "" => starts_with_sep t | _ => starts_with_sep s end.
Proof. by destruct s. Qed.

Lemma new_ufo_name_not_absolute (e_axes : list string)
    (source : SourceDescriptor) :
  starts_with_sep (new_ufo_name e_axes source) = false.
Proof.
  unfold new_ufo_name.
  destruct (splitext (basename (src_filename source))) as [base ext] eqn:Hsplit.
  apply splitext_append in Hsplit.
  assert (Hbn := basename_not_absolute (src_filename source)).
  rewrite <- Hsplit, starts_with_sep_append in Hbn.
  rewrite starts_with_sep_append. by destruct base.
Qed.

Lemma new_ufo_path_fresh (e_axes : list string) (source : SourceDescriptor) :
  new_ufo_path e_axes source ≠ orig_ufo_path source.
Proof.
  unfold new_ufo_path, orig_ufo_path, UFO_OUTPUT_DIR, UFO_SOURCE_DIR.
  rewrite !path_join_relative
    by (apply new_ufo_name_not_absolute || apply basename_not_absolute).
  intros Heq%(f_equal String.length). revert Heq.
  unfold new_ufo_name.
  destruct (splitext (basename (src_filename source))) as [base ext] eqn:Hsplit.
  apply splitext_append in Hsplit. rewrite <- Hsplit.
  rewrite !length_append. simpl. lia.
Qed.

(** ** Source duplication *)

Lemma set_e_axes_spec (bound : minmax → Q) (axis_minmax : gmap string minmax)
    (l : list string) (location : gmap string Q) :
  (∀ axis, axis ∈ l → is_Some (axis_minmax !! axis)) →
  ∃ location',
    set_e_axes bound l axis_minmax location = Ok location'
    ∧ ∀ k, location' !! k
           = if decide (k ∈ l) then bound <$> axis_minmax !! k
             else location !! k.
Proof.
  unfold set_e_axes. revert location.
  induction l as [|x l IH]; intros location Hmm.
  - exists location. split; [done|]. intros k.
    by rewrite decide_False by apply not_elem_of_nil.
  - destruct (Hmm x) as [mm Hx]; [left|].
    rewrite for_each_cons, (getitem_Some _ _ _ Hx). simpl.
    destruct (IH (<[x := bound mm]> location)) as (location' & -> & Hlook);
      [intros; apply Hmm; by right|].
    exists location'. split; [done|]. intros k. rewrite Hlook.
    destruct (decide (k ∈ l)) as [Hin|Hnot].
    + by rewrite decide_True by (by right).
    + destruct (decide (k = x)) as [->|Hne].
      * rewrite decide_True by left. by rewrite lookup_insert_eq, Hx.
      * rewrite decide_False by (by intros [?|?]%elem_of_cons).
        by rewrite lookup_insert_ne.
Qed.

Section DuplicationFacts.
Variable relpath : string → string → string.
Variable e_axes : list string.
Variable axis_minmax : gmap string minmax.
Hypothesis bounds :
  ∀ axis, axis ∈ e_axes → is_Some (axis_minmax !! axis).

Lemma duplicate_source_skip (source : SourceDescriptor) (st : dup_state) :
  orig_ufo_path source ∉ st_fs st →
  ∃ location,
    set_e_axes mm_min e_axes axis_minmax (src_location source) = Ok location
    ∧ duplicate_source relpath e_axes axis_minmax source st
      = Ok {| st_fs := st_fs st ∖ {[new_ufo_path e_axes source]};
              st_sources := st_sources st ++ [with_location source location];
              st_new_sources := st_new_sources st;
              st_trace :=
                st_trace st
                ++ [Print_duplicating (orig_ufo_path source)
                      (new_ufo_path e_axes source)]
                ++ removal e_axes source (st_fs st)
                ++ [Print_warning_not_found (orig_ufo_path source)] |}.
Proof.
  intros Hmissing.
  destruct (set_e_axes_spec mm_min axis_minmax e_axes (src_location source)
              bounds) as (location & Hset & _).
  exists location. split; [done|].
  unfold duplicate_source, removal. rewrite Hset. simpl.
  change (orig_ufo_path (with_location source location))
    with (orig_ufo_path source).
  change (new_ufo_path e_axes (with_location source location))
    with (new_ufo_path e_axes source).
  case_bool_decide as Hnew.
  - rewrite bool_decide_eq_true_2 by (by intros [? _]%elem_of_difference).
    by rewrite <- !app_assoc.
  - rewrite bool_decide_eq_true_2 by done.
    rewrite <- !app_assoc. simpl. do 2 f_equal.
    symmetry. by apply difference_disjoint_L, disjoint_singleton_r.
Qed.

Lemma duplicate_source_copy (source : SourceDescriptor) (st : dup_state) :
  orig_ufo_path source ∈ st_fs st →
  ∃ location new_location,
    set_e_axes mm_min e_axes axis_minmax (src_location source) = Ok location
    ∧ set_e_axes mm_max e_axes axis_minmax location = Ok new_location
    ∧ duplicate_source relpath e_axes axis_minmax source st
      = Ok {| st_fs := st_fs st ∪ {[new_ufo_path e_axes source]};
              st_sources := st_sources st ++ [with_location source location];
              st_new_sources :=
                st_new_sources st
                ++ [make_new_source relpath e_axes
                      (with_location source location) new_location];
              st_trace :=
                st_trace st
                ++ [Print_duplicating (orig_ufo_path source)
                      (new_ufo_path e_axes source)]
                ++ removal e_axes source (st_fs st)
                ++ [Copytree (orig_ufo_path source)
                      (new_ufo_path e_axes source);
                    Print_added_source
                      (relpath (new_ufo_path e_axes source)
                         (dirname OUTPUT_DESIGNSPACE))
                      new_location] |}.
Proof.
  intros Hexists.
  destruct (set_e_axes_spec mm_min axis_minmax e_axes (src_location source)
              bounds) as (location & Hmin & _).
  destruct (set_e_axes_spec mm_max axis_minmax e_axes location bounds)
    as (new_location & Hmax & _).
  exists location, new_location. split; [done|]. split; [done|].
  assert (Hfresh := new_ufo_path_fresh e_axes source).
  unfold duplicate_source, removal. rewrite Hmin. simpl.
  change (orig_ufo_path (with_location source location))
    with (orig_ufo_path source).
  change (new_ufo_path e_axes (with_location source location))
    with (new_ufo_path e_axes source).
  case_bool_decide as Hnew.
  - rewrite bool_decide_eq_false_2.
    2:{ intros Hnot. apply Hnot, elem_of_difference. split; [done|].
        rewrite elem_of_singleton. congruence. }
    rewrite Hmax. simpl. rewrite <- !app_assoc. simpl. do 2 f_equal.
    apply set_eq. intros p.
    rewrite !elem_of_union, elem_of_difference, elem_of_singleton.
    destruct (decide (p = new_ufo_path e_axes source)); tauto.
  - rewrite bool_decide_eq_false_2 by (by intros Hnot).
    rewrite Hmax. simpl. by rewrite <- !app_assoc.
Qed.

Lemma duplicate_loop_total (srcs : list SourceDescriptor) (st : dup_state) :
  ∃ st',
    duplicate_loop relpath e_axes axis_minmax srcs st = Ok st'
    ∧ st_trace st `prefix_of` st_trace st'
    ∧ st_new_sources st `prefix_of` st_new_sources st'.
Proof.
  unfold duplicate_loop. revert st.
  induction srcs as [|source srcs IH]; intros st; [by exists st|].
  rewrite for_each_cons.
  destruct (decide (orig_ufo_path source ∈ st_fs st)) as [Hin|Hnot].
  - destruct (duplicate_source_copy source st Hin)
      as (location & new_location & _ & _ & ->).
    simpl.
    match goal with
    | |- context [for_each _ _ ?st1] =>
        destruct (IH st1) as (st' & -> & Htrace & Hnew)
    end.
    exists st'. split; [done|]. simpl in *. split.
    + etrans; [|exact Htrace]. by apply prefix_app_r.
    + etrans; [|exact Hnew]. by apply prefix_app_r.
  - destruct (duplicate_source_skip source st Hnot) as (location & _ & ->).
    simpl.
    match goal with
    | |- context [for_each _ _ ?st1] =>
        destruct (IH st1) as (st' & -> & Htrace & Hnew)
    end.
    exists st'. split; [done|]. simpl in *. split; [|done].
    etrans; [|exact Htrace]. by apply prefix_app_r.
Qed.

Lemma duplicate_loop_existing (srcs : list SourceDescriptor)
    (st : dup_state) :
  (∀ source, source ∈ srcs → orig_ufo_path source ∈ st_fs st) →
  ∃ st' originals duplicates,
    duplicate_loop relpath e_axes axis_minmax srcs st = Ok st'
    ∧ st_sources st' = st_sources st ++ originals
    ∧ st_new_sources st' = st_new_sources st ++ duplicates
    ∧ Forall2
        (fun source original =>
           ∃ location,
             original = with_location source location
             ∧ moved_to mm_min e_axes axis_minmax (src_location source)
                        location)
        srcs originals
    ∧ Forall2
        (fun source duplicate =>
           moved_to mm_max e_axes axis_minmax (src_location source)
                    (src_location duplicate))
        srcs duplicates.
Proof.
  unfold duplicate_loop. revert st.
  induction srcs as [|source srcs IH]; intros st Hexist.
  - exists st, [], []. rewrite !app_nil_r. by repeat split.
  - rewrite for_each_cons.
    destruct (duplicate_source_copy source st)
      as (location & new_location & Hmin & Hmax & ->); [apply Hexist; left|].
    simpl.
    match goal with
    | |- context [for_each _ _ ?st1] =>
        destruct (IH st1)
          as (st' & originals & duplicates & -> & Hsrc & Hnew & Horig & Hdup)
    end.
    { intros s Hs. simpl. apply elem_of_union_l, Hexist. by right. }
    simpl in *.
    destruct (set_e_axes_spec mm_min axis_minmax e_axes
                (src_location source) bounds) as (l1 & Hmin' & Hl1).
    rewrite Hmin in Hmin'. injection Hmin' as <-.
    destruct (set_e_axes_spec mm_max axis_minmax e_axes location bounds)
      as (l2 & Hmax' & Hl2).
    rewrite Hmax in Hmax'. injection Hmax' as <-.
    exists st', (with_location source location :: originals),
      (make_new_source relpath e_axes (with_location source location)
         new_location :: duplicates).
    split; [done|]. rewrite Hsrc, Hnew, <- !app_assoc.
    split; [done|]. split; [done|]. split.
    + constructor; [|done]. by exists location.
    + constructor; [|done]. intros k. simpl. rewrite Hl2.
      destruct (decide (k ∈ e_axes)) as [Hk|Hk]; [done|].
      by rewrite Hl1, decide_False.
Qed.
End DuplicationFacts.

Lemma sample_bounds :
  ∀ axis, axis ∈ ["Weight-e"] → is_Some (sample_axis_minmax !! axis).
Proof. intros axis ->%list_elem_of_singleton. by eexists. Defined.

(** C1.  With bounds for every extension axis and every original master
    directory on disk, duplication returns a document whose sources are the
    originals, in order, followed by one duplicate per original, in the same
    order; each original keeps its coordinates except that every extension
    axis is set to its minimum, whatever it was before, and its duplicate has
    the original's coordinates except that every extension axis is set to
    its maximum. *)
Theorem every_master_is_duplicated
    (relpath : string → string → string) (e_axes : list string)
    (axis_minmax : gmap string minmax) (fs : gset string)
    (doc : DesignSpaceDocument) :
  (∀ axis, axis ∈ e_axes → is_Some (axis_minmax !! axis)) →
  (∀ source, source ∈ sources doc → orig_ufo_path source ∈ fs) →
  ∃ fs' originals duplicates trace,
    duplicate_sources_and_update_designspace relpath e_axes axis_minmax fs doc
    = Ok (fs',
          {| axes := axes doc;
             sources := originals ++ duplicates;
             instances := instances doc |},
          trace)
    ∧ Forall2
        (fun source original =>
           ∃ location,
             original = with_location source location
             ∧ moved_to mm_min e_axes axis_minmax (src_location source)
                        location)
        (sources doc) originals
    ∧ Forall2
        (fun source duplicate =>
           moved_to mm_max e_axes axis_minmax (src_location source)
                    (src_location duplicate))
        (sources doc) duplicates.
Proof.
  intros Hbounds Hexist.
  destruct (duplicate_loop_existing relpath e_axes axis_minmax Hbounds
              (sources doc) (initial_state fs) Hexist)
    as (st' & originals & duplicates & Hrun & Hsrc & Hnew & Horig & Hdup).
  exists (st_fs st'), originals, duplicates, (st_trace st').
  split; [|done].
  unfold duplicate_sources_and_update_designspace. rewrite Hrun. simpl.
  by rewrite Hsrc, Hnew.
Qed.

Lemma every_master_is_duplicated_witness :
  ∃ fs' originals duplicates trace,
    duplicate_sources_and_update_designspace sample_relpath ["Weight-e"]
      sample_axis_minmax sample_fs sample_doc
    = Ok (fs',
          {| axes := axes sample_doc;
             sources := originals ++ duplicates;
             instances := instances sample_doc |},
          trace)
    ∧ length originals = 1%nat ∧ length duplicates = 1%nat.
Proof.
  destruct (every_master_is_duplicated sample_relpath ["Weight-e"]
              sample_axis_minmax sample_fs sample_doc sample_bounds)
    as (fs' & originals & duplicates & trace & Hrun & Horig & Hdup).
  - intros source ->%list_elem_of_singleton. by apply elem_of_singleton.
  - exists fs', originals, duplicates, trace. split; [exact Hrun|].
    by rewrite <- (Forall2_length _ _ _ Horig), <- (Forall2_length _ _ _ Hdup).
Defined.

(** The sample document: the master moves to [Weight-e] = 100 and its
    duplicate sits at [Weight-e] = 300. *)
Example sample_duplication :
  ∃ fs' doc' trace,
    duplicate_sources_and_update_designspace sample_relpath ["Weight-e"]
      sample_axis_minmax sample_fs sample_doc = Ok (fs', doc', trace)
    ∧ map src_filename (sources doc')
      = ["Crispy-Regular.ufo"; "Crispy-Regular-Weight-eMax.ufo"]
    ∧ map (fun source => src_location source !! "Weight-e") (sources doc')
      = [Some 100%Q; Some 300%Q]
    ∧ trace
      = [Print_duplicating "master_ufo/Crispy-Regular.ufo"
           "master_ufo/Crispy-Regular-Weight-eMax.ufo";
         Copytree "master_ufo/Crispy-Regular.ufo"
           "master_ufo/Crispy-Regular-Weight-eMax.ufo";
         Print_added_source "Crispy-Regular-Weight-eMax.ufo"
           {[ "Weight" := 100%Q; "Weight-e" := 300%Q ]}].
Proof. do 3 eexists. split; [reflexivity|]. by repeat split. Qed.

(** C8.  With bounds for every extension axis the run returns, whatever is
    on disk.  When the master directory of a source is missing as the loop
    reaches it, the iteration prints the warning and appends no duplicate,
    the original still being moved to the minima, and the loop goes on with
    the sources that follow; the warning is in the trace of the run. *)
Theorem missing_master_is_skipped
    (relpath : string → string → string) (e_axes : list string)
    (axis_minmax : gmap string minmax) (fs : gset string)
    (doc : DesignSpaceDocument)
    (before : list SourceDescriptor) (source : SourceDescriptor)
    (after : list SourceDescriptor) :
  (∀ axis, axis ∈ e_axes → is_Some (axis_minmax !! axis)) →
  sources doc = before ++ source :: after →
  ∃ reached skipped fs' doc' trace,
    duplicate_loop relpath e_axes axis_minmax before (initial_state fs)
    = Ok reached
    ∧ duplicate_sources_and_update_designspace relpath e_axes axis_minmax
        fs doc = Ok (fs', doc', trace)
    ∧ (orig_ufo_path source ∉ st_fs reached →
       duplicate_source relpath e_axes axis_minmax source reached = Ok skipped
       ∧ st_new_sources skipped = st_new_sources reached
       ∧ (∃ location,
            st_sources skipped
            = st_sources reached ++ [with_location source location]
            ∧ moved_to mm_min e_axes axis_minmax (src_location source)
                       location)
       ∧ last (st_trace skipped)
         = Some (Print_warning_not_found (orig_ufo_path source))
       ∧ duplicate_loop relpath e_axes axis_minmax (sources doc)
           (initial_state fs)
         = duplicate_loop relpath e_axes axis_minmax after skipped
       ∧ Print_warning_not_found (orig_ufo_path source) ∈ trace).
Proof.
  intros Hbounds Hsplit.
  destruct (duplicate_loop_total relpath e_axes axis_minmax Hbounds before
              (initial_state fs)) as (reached & Hreached & _).
  destruct (duplicate_loop_total relpath e_axes axis_minmax Hbounds [source]
              reached) as (skipped & Hstep & _).
  destruct (duplicate_loop_total relpath e_axes axis_minmax Hbounds after
              skipped) as (final & Hfinal & Htrace & _).
  unfold duplicate_loop in Hstep. rewrite for_each_cons in Hstep.
  apply bind_Ok in Hstep as (skipped' & Hstep & [= ->]).
  assert (duplicate_loop relpath e_axes axis_minmax (sources doc)
            (initial_state fs)
          = duplicate_loop relpath e_axes axis_minmax after skipped) as Hgo.
  { rewrite Hsplit. unfold duplicate_loop in *.
    rewrite for_each_app, Hreached. simpl. by rewrite Hstep. }
  exists reached, skipped. do 3 eexists.
  split; [done|]. split.
  { unfold duplicate_sources_and_update_designspace.
    rewrite Hgo, Hfinal. reflexivity. }
  intros Hmissing. simpl.
  destruct (duplicate_source_skip relpath e_axes axis_minmax Hbounds source
              reached Hmissing) as (location & Hmin & Hskip).
  rewrite Hskip in Hstep. injection Hstep as <-. simpl in *.
  split; [done|]. split; [done|]. split.
  { exists location. split; [done|].
    destruct (set_e_axes_spec mm_min axis_minmax e_axes (src_location source)
                Hbounds) as (l1 & Hmin' & Hl1).
    rewrite Hmin in Hmin'. by injection Hmin' as <-. }
  split; [by rewrite app_comm_cons, app_assoc, last_snoc|]. split; [done|].
  eapply elem_of_prefix; [|exact Htrace].
  apply elem_of_app. right. right. apply elem_of_app. right. left.
Qed.

(** C10.  When the loop reaches a source whose master directory is missing
    while a directory exists at the destination of its duplicate, the
    iteration removes that directory, then prints the warning and skips the
    source: afterwards nothing exists at the destination, no duplicate has
    been appended, and the file system differs from the one before. *)
Theorem skipping_removes_stale_duplicate
    (relpath : string → string → string) (e_axes : list string)
    (axis_minmax : gmap string minmax) (source : SourceDescriptor)
    (st : dup_state) :
  (∀ axis, axis ∈ e_axes → is_Some (axis_minmax !! axis)) →
  orig_ufo_path source ∉ st_fs st →
  new_ufo_path e_axes source ∈ st_fs st →
  ∃ st',
    duplicate_source relpath e_axes axis_minmax source st = Ok st'
    ∧ st_trace st'
      = st_trace st
        ++ [Print_duplicating (orig_ufo_path source)
              (new_ufo_path e_axes source);
            Rmtree (new_ufo_path e_axes source);
            Print_warning_not_found (orig_ufo_path source)]
    ∧ st_fs st' = st_fs st ∖ {[new_ufo_path e_axes source]}
    ∧ (new_ufo_path e_axes source ∉ st_fs st')
    ∧ st_fs st' ≠ st_fs st
    ∧ st_new_sources st' = st_new_sources st.
Proof.
  intros Hbounds Hmissing Hstale.
  destruct (duplicate_source_skip relpath e_axes axis_minmax Hbounds source
              st Hmissing) as (location & _ & ->).
  eexists. split; [done|]. simpl. unfold removal.
  rewrite bool_decide_eq_true_2 by done.
  split; [done|]. split; [done|].
  assert (new_ufo_path e_axes source
          ∉ st_fs st ∖ {[new_ufo_path e_axes source]}) as Hgone.
  { intros [_ Hne]%elem_of_difference. by apply Hne, elem_of_singleton. }
  split; [done|]. split; [|done].
  intros Heq. by rewrite Heq in Hgone.
Qed.

Lemma missing_master_is_skipped_witness :
  ∃ fs' doc' trace,
    duplicate_sources_and_update_designspace sample_relpath ["Weight-e"]
      sample_axis_minmax ∅ sample_doc = Ok (fs', doc', trace)
    ∧ Print_warning_not_found (orig_ufo_path sample_source) ∈ trace.
Proof.
  destruct (missing_master_is_skipped sample_relpath ["Weight-e"]
              sample_axis_minmax ∅ sample_doc [] sample_source []
              sample_bounds eq_refl)
    as (reached & skipped & fs' & doc' & trace & Hreached & Hrun & Hskip).
  injection Hreached as <-.
  destruct Hskip as (_ & _ & _ & _ & _ & Hwarned); [apply not_elem_of_empty|].
  by exists fs', doc', trace.
Defined.

Lemma skipping_removes_stale_duplicate_witness :
  ∃ st',
    duplicate_source sample_relpath ["Weight-e"] sample_axis_minmax
      sample_source (initial_state stale_fs) = Ok st'
    ∧ st_fs st' = stale_fs ∖ {[new_ufo_path ["Weight-e"] sample_source]}
    ∧ st_new_sources st' = [].
Proof.
  destruct (skipping_removes_stale_duplicate sample_relpath ["Weight-e"]
              sample_axis_minmax sample_source (initial_state stale_fs)
              sample_bounds)
    as (st' & Hrun & _ & Hfs & _ & _ & Hnew).
  - simpl. unfold stale_fs. intros H%elem_of_singleton.
    vm_compute in H. discriminate H.
  - simpl. unfold stale_fs. apply elem_of_singleton. reflexivity.
  - by exists st'.
Defined.

(** The sample document on the stale file system: the copy of the earlier
    run is removed and not made again. *)
Example sample_stale_run :
  ∃ doc',
    duplicate_sources_and_update_designspace sample_relpath ["Weight-e"]
      sample_axis_minmax stale_fs sample_doc
    = Ok (stale_fs ∖ {[ "master_ufo/Crispy-Regular-Weight-eMax.ufo" ]},
          doc',
          [Print_duplicating "master_ufo/Crispy-Regular.ufo"
             "master_ufo/Crispy-Regular-Weight-eMax.ufo";
           Rmtree "master_ufo/Crispy-Regular-Weight-eMax.ufo";
           Print_warning_not_found "master_ufo/Crispy-Regular.ufo"])
    ∧ length (sources doc') = 1%nat.
Proof. eexists. split; reflexivity. Qed.

(** ** Axis defaults *)

Lemma min_with_idempotent (m : pyfloat) (v : Q) :
  min_with (min_with m v) v = min_with m v.
Proof.
  destruct m as [x|]; simpl.
  - destruct (Qltb v x) eqn:Hlt; simpl; [|by rewrite Hlt].
    unfold Qltb. by rewrite (proj2 (Qle_bool_iff v v) (Qle_refl v)).
  - unfold Qltb. by rewrite (proj2 (Qle_bool_iff v v) (Qle_refl v)).
Qed.

Lemma min_step_idempotent (source : SourceDescriptor) (axis : string)
    (m : option pyfloat) :
  min_step source axis (min_step source axis m) = min_step source axis m.
Proof.
  unfold min_step. destruct (src_location source !! axis); [|done].
  destruct m; simpl; [|done]. by rewrite min_with_idempotent.
Qed.

Lemma min_step_is_Some (source : SourceDescriptor) (axis : string)
    (m : option pyfloat) :
  is_Some (min_step source axis m) ↔ is_Some m.
Proof.
  unfold min_step. destruct (src_location source !! axis); [|done].
  by rewrite fmap_is_Some.
Qed.

Lemma initial_min_values_lookup (axis_names : list string) (k : string) :
  initial_min_values axis_names !! k
  = if decide (k ∈ axis_names) then Some Inf else None.
Proof.
  unfold initial_min_values.
  cut (∀ acc : gmap string pyfloat,
         foldl (fun d axis => <[axis := Inf]> d) acc axis_names !! k
         = if decide (k ∈ axis_names) then Some Inf else acc !! k).
  { intros H. rewrite H. by rewrite lookup_empty. }
  induction axis_names as [|x l IH]; intros acc.
  - by rewrite decide_False by apply not_elem_of_nil.
  - change (foldl (fun d axis => <[axis := Inf]> d) (<[x := Inf]> acc) l !! k
            = if decide (k ∈ x :: l) then Some Inf else acc !! k).
    rewrite IH. destruct (decide (k ∈ l)) as [Hin|Hnot].
    + by rewrite decide_True by (by right).
    + destruct (decide (k = x)) as [->|Hne].
      * rewrite decide_True by left. by rewrite lookup_insert_eq.
      * rewrite decide_False by (by intros [?|?]%elem_of_cons).
        by rewrite lookup_insert_ne.
Qed.

Lemma min_values_of_source_spec (axis_names : list string)
    (source : SourceDescriptor) (min_values : gmap string pyfloat) :
  (∀ axis, axis ∈ axis_names → is_Some (min_values !! axis)) →
  ∃ min_values',
    min_values_of_source axis_names source min_values = Ok min_values'
    ∧ ∀ k, min_values' !! k
           = if decide (k ∈ axis_names)
             then min_step source k (min_values !! k)
             else min_values !! k.
Proof.
  unfold min_values_of_source. revert min_values.
  induction axis_names as [|x l IH]; intros min_values Hdom.
  - exists min_values. split; [done|]. intros k.
    by rewrite decide_False by apply not_elem_of_nil.
  - rewrite for_each_cons.
    destruct (Hdom x) as [m Hm]; [left|].
    set (min_values1 :=
           match src_location source !! x with
           | Some v => <[x := min_with m v]> min_values
           | None => min_values
           end).
    assert (∀ k, min_values1 !! k
                 = if decide (k = x) then min_step source x (min_values !! x)
                   else min_values !! k) as Hstep.
    { intros k. unfold min_values1, min_step.
      destruct (src_location source !! x) as [v|].
      - destruct (decide (k = x)) as [->|Hne].
        + by rewrite lookup_insert_eq, Hm.
        + by rewrite lookup_insert_ne.
      - by destruct (decide (k = x)) as [->|Hne]. }
    destruct (IH min_values1) as (min_values' & Hrun & Hlook).
    { intros axis Haxis. rewrite Hstep. case_decide as Heq.
      - apply min_step_is_Some. by rewrite Hm.
      - apply Hdom. by right. }
    exists min_values'. split.
    { unfold min_values1 in Hrun.
      destruct (src_location source !! x) as [v|]; simpl; [|done].
      by rewrite (getitem_Some _ _ _ Hm). }
    intros k. rewrite Hlook, Hstep.
    destruct (decide (k ∈ l)) as [Hin|Hnot].
    + rewrite (decide_True (P := k ∈ x :: l)) by (by right).
      destruct (decide (k = x)) as [->|Hne]; [|done].
      apply min_step_idempotent.
    + destruct (decide (k = x)) as [->|Hne].
      * by rewrite decide_True by left.
      * by rewrite decide_False by (by intros [?|?]%elem_of_cons).
Qed.

Lemma min_values_loop_spec (axis_names : list string)
    (srcs : list SourceDescriptor) (min_values : gmap string pyfloat) :
  (∀ axis, axis ∈ axis_names → is_Some (min_values !! axis)) →
  ∃ min_values',
    for_each (min_values_of_source axis_names) srcs min_values
    = Ok min_values'
    ∧ ∀ k, k ∈ axis_names →
           min_values' !! k
           = foldl (fun m source => min_step source k m) (min_values !! k) srcs.
Proof.
  revert min_values. induction srcs as [|source srcs IH];
    intros min_values Hdom.
  - by exists min_values.
  - rewrite for_each_cons.
    destruct (min_values_of_source_spec axis_names source min_values Hdom)
      as (min_values1 & -> & Hstep).
    simpl. destruct (IH min_values1) as (min_values' & -> & Hlook).
    { intros axis Haxis. rewrite Hstep, decide_True by done.
      apply min_step_is_Some. by apply Hdom. }
    exists min_values'. split; [done|]. intros k Hk.
    by rewrite (Hlook k Hk), Hstep, decide_True.
Qed.

Lemma foldl_min_step (axis : string) (srcs : list SourceDescriptor)
    (m : pyfloat) :
  foldl (fun m source => min_step source axis m) (Some m) srcs
  = Some (foldl min_with m
            (omap (fun source => src_location source !! axis) srcs)).
Proof.
  revert m. induction srcs as [|source srcs IH]; intros m; [done|].
  simpl. unfold min_step at 2.
  destruct (src_location source !! axis) as [v|]; simpl; apply IH.
Qed.

Lemma foldl_min_with_Finite (v : Q) (vs : list Q) :
  foldl min_with (Finite v) vs
  = Finite (foldl (fun m x => if Qltb x m then x else m) v vs).
Proof.
  revert v. induction vs as [|x vs IH]; intros v; [done|].
  simpl. destruct (Qltb x v); apply IH.
Qed.

Lemma foldl_min_with_Inf (values : list Q) :
  values ≠ [] →
  ∃ m, foldl min_with Inf values = Finite m
       ∧ m ∈ values ∧ ∀ v, v ∈ values → (m <= v)%Q.
Proof.
  destruct values as [|v vs]; [done|]. intros _. simpl.
  rewrite foldl_min_with_Finite. eexists. split; [done|].
  apply foldl_min_spec.
Qed.

Lemma compute_min_values_spec (doc : DesignSpaceDocument) :
  ∃ min_values,
    compute_min_values doc = Ok min_values
    ∧ ∀ k, k ∈ map axis_name (axes doc) →
           min_values !! k
           = Some (foldl min_with Inf (source_coordinates doc k)).
Proof.
  unfold compute_min_values.
  destruct (min_values_loop_spec (map axis_name (axes doc)) (sources doc)
              (initial_min_values (map axis_name (axes doc))))
    as (min_values & Hrun & Hlook).
  { intros axis Haxis. rewrite initial_min_values_lookup.
    by rewrite decide_True. }
  exists min_values. split; [done|]. intros k Hk.
  rewrite (Hlook k Hk), initial_min_values_lookup, decide_True by done.
  apply foldl_min_step.
Qed.

(** C2.  For a document whose serialized [<axis>] elements carry the names
    of its axes, the pass returns the elements with names and other
    attributes as they were, and for every axis on which at least one source
    has a coordinate there is an element of that name, and the default of
    every such element is [str] of the least coordinate that the sources
    have on the axis. *)
Theorem defaults_are_source_minimums (str : pyfloat → string)
    (axis_elems : list axis_elem) (doc : DesignSpaceDocument) :
  map elem_name axis_elems = map (fun a => Some (axis_name a)) (axes doc) →
  ∃ axis_elems',
    set_axis_defaults_to_minimums str axis_elems doc = Ok axis_elems'
    ∧ map elem_name axis_elems' = map elem_name axis_elems
    ∧ map elem_attrs axis_elems' = map elem_attrs axis_elems
    ∧ ∀ axis,
        axis ∈ axes doc →
        (∃ source, source ∈ sources doc
                   ∧ is_Some (src_location source !! axis_name axis)) →
        ∃ m,
          m ∈ source_coordinates doc (axis_name axis)
          ∧ (∀ v, v ∈ source_coordinates doc (axis_name axis) → (m <= v)%Q)
          ∧ (∃ elem, elem ∈ axis_elems'
                     ∧ elem_name elem = Some (axis_name axis))
          ∧ ∀ elem, elem ∈ axis_elems' →
                    elem_name elem = Some (axis_name axis) →
                    elem_default elem = Some (str (Finite m)).
Proof.
  intros Hwritten.
  destruct (compute_min_values_spec doc) as (min_values & Hrun & Hlook).
  exists (map (set_default str min_values) axis_elems).
  assert (∀ elem, elem_name (set_default str min_values elem) = elem_name elem)
    as Hname.
  { intros elem. unfold set_default.
    destruct (elem_name elem) as [name|] eqn:Hn; [|done].
    by destruct (min_values !! name). }
  split; [unfold set_axis_defaults_to_minimums; by rewrite Hrun|].
  split.
  { rewrite map_map. apply map_ext. exact Hname. }
  split.
  { rewrite map_map. apply map_ext. intros elem. unfold set_default.
    destruct (elem_name elem) as [name|]; [|done].
    by destruct (min_values !! name). }
  intros axis Haxis (source & Hsource & [v Hv]).
  assert (axis_name axis ∈ map axis_name (axes doc)) as Hk
    by (apply list_elem_of_fmap; by exists axis).
  destruct (foldl_min_with_Inf (source_coordinates doc (axis_name axis)))
    as (m & Hm & Hin & Hle).
  { intros Hnil.
    assert (v ∈ source_coordinates doc (axis_name axis)) as Hvin
      by (apply list_elem_of_omap; eauto).
    rewrite Hnil in Hvin. by apply not_elem_of_nil in Hvin. }
  exists m. split; [done|]. split; [done|]. split.
  - assert (Some (axis_name axis) ∈ map elem_name axis_elems) as Helem.
    { rewrite Hwritten. apply list_elem_of_fmap. by exists axis. }
    apply list_elem_of_fmap in Helem as (elem & Heq & Helem).
    exists (set_default str min_values elem). split.
    + apply list_elem_of_fmap. by exists elem.
    + by rewrite Hname.
  - intros elem' (elem & -> & Helem)%list_elem_of_fmap Heq.
    rewrite Hname in Heq. unfold set_default.
    by rewrite Heq, (Hlook _ Hk), Hm.
Qed.

Lemma defaults_are_source_minimums_witness :
  ∃ axis_elems',
    set_axis_defaults_to_minimums sample_str sample_axis_elems sample_doc
    = Ok axis_elems'
    ∧ map elem_name axis_elems' = [Some "Weight"].
Proof.
  destruct (defaults_are_source_minimums sample_str sample_axis_elems
              sample_doc eq_refl) as (axis_elems' & Hrun & Hnames & _).
  by exists axis_elems'.
Defined.

(** The sample document: the default written as ["100"] is rewritten to
    [str] of the float 100. *)
Example sample_defaults :
  set_axis_defaults_to_minimums sample_str sample_axis_elems sample_doc
  = Ok [{| elem_name := Some "Weight"; elem_default := Some "100.0";
           elem_attrs := [("tag", "wght"); ("minimum", "100");
                          ("maximum", "900")] |}].
Proof. reflexivity. Qed.

(** An axis on which no source has a coordinate keeps [float('inf')]. *)
Example default_without_coordinates :
  set_axis_defaults_to_minimums sample_str sample_axis_elems
    {| axes := axes sample_doc; sources := []; instances := [] |}
  = Ok [{| elem_name := Some "Weight"; elem_default := Some "inf";
           elem_attrs := [("tag", "wght"); ("minimum", "100");
                          ("maximum", "900")] |}].
Proof. reflexivity. Qed.

(** ** Width inspection *)

Lemma sorted_empty : Inspector2.sorted ∅ = [].
Proof. unfold Inspector2.sorted. by rewrite elements_empty. Qed.

(** C7.  When [export] can be created and [fontmake] exits with a non-zero
    status, both variants of [process_instances_with_harfbuzz] return
    normally with no rows (the second variant also with no axis names),
    having logged the failure. *)
Theorem fontmake_failure_gives_no_rows (env : environment) (text : string)
    (returncode : Z) :
  env_mkdir env = Ok () →
  env_fontmake env = Ok returncode →
  returncode ≠ 0%Z →
  Inspector.process_instances_with_harfbuzz env
  = Ok ([], [Info_generating;
             Error_fontmake_failed (CalledProcessError returncode)])
  ∧ Inspector2.process_instances_with_harfbuzz env text
    = Ok ([], [], [Info_generating;
                   Error_fontmake_failed (CalledProcessError returncode)]).
Proof.
  intros Hmkdir Hrun Hcode.
  unfold Inspector.process_instances_with_harfbuzz,
    Inspector2.process_instances_with_harfbuzz, subprocess_run_check.
  rewrite Hmkdir, Hrun. simpl.
  rewrite (proj2 (Z.eqb_neq returncode 0) Hcode). simpl.
  by rewrite sorted_empty.
Qed.

Lemma fontmake_failure_gives_no_rows_witness :
  Inspector.process_instances_with_harfbuzz failed_build
  = Ok ([], [Info_generating; Error_fontmake_failed (CalledProcessError 1)])
  ∧ Inspector2.process_instances_with_harfbuzz failed_build "H"
    = Ok ([], [], [Info_generating;
                   Error_fontmake_failed (CalledProcessError 1)]).
Proof.
  apply (fontmake_failure_gives_no_rows failed_build "H" 1);
    [reflexivity | reflexivity | discriminate].
Defined.

(** The row of an instance without axis data has the placeholder for every
    axis reported so far. *)
Lemma build_row_placeholder (text instance_name : string)
    (all_axes : gset string) (width : Z) (axis : string) :
  axis ∈ all_axes → axis ≠ text +:+ " Width" →
  Inspector2.build_row text instance_name all_axes ∅ width !! axis
  = Some (Inspector2.VStr "-").
Proof.
  intros Hin Hne. unfold Inspector2.build_row.
  rewrite lookup_insert_ne by done.
  apply elem_of_elements in Hin. revert Hin.
  generalize (elements all_axes).
  generalize ({[ "Instance" := Inspector2.VStr instance_name ]}
              : gmap string Inspector2.value).
  intros acc l. revert acc.
  induction l as [|x l IH] using rev_ind; intros acc Hin.
  - by apply not_elem_of_nil in Hin.
  - rewrite foldl_app. simpl.
    destruct (decide (axis = x)) as [->|Hx].
    + by rewrite lookup_insert_eq.
    + rewrite lookup_insert_ne by done. apply IH.
      apply elem_of_app in Hin as [?|Hin]; [done|].
      by apply list_elem_of_singleton in Hin.
Qed.

Lemma handle_Exception (e : exn) (log : list log_record) :
  is_Exception e = true → ∃ log', handle e log = Ok log'.
Proof. destruct e; simpl; intros H; by eauto. Qed.

Lemma handle_Raise (e e' : exn) (log : list log_record) :
  handle e log = Raise e' → e' = e ∧ is_Exception e = false.
Proof. destruct e; simpl; intros H; by simplify_eq. Qed.











(** * Further properties *)

(** ** Rows of the reader *)

Lemma dict_get_dict_set {K V} `{EqDecision K} (k k' : K) (v : V)
    (d : list (K * V)) :
  dict_get k' (dict_set k v d)
  = if decide (k = k') then Some v else dict_get k' d.
Proof.
  induction d as [|[k0 v0] d IH]; simpl.
  - destruct (decide (k = k')); by simpl.
  - destruct (decide (k0 = k)) as [->|Hne]; simpl.
    + destruct (decide (k = k')); by simpl.
    + destruct (decide (k0 = k')) as [->|Hne'].
      * by rewrite decide_False.
      * done.
Qed.

Lemma dict_set_keys {K V} `{EqDecision K} (k : K) (v : V) (d : list (K * V)) :
  (∀ k', k' ∈ (dict_set k v d).*1 → k' = k ∨ k' ∈ d.*1)
  ∧ (NoDup d.*1 → NoDup (dict_set k v d).*1).
Proof.
  induction d as [|[k0 v0] d (IHin & IHnodup)]; simpl.
  - split; [|intros _; apply NoDup_singleton].
    intros k' ->%list_elem_of_singleton. by left.
  - destruct (decide (k0 = k)) as [->|Hne]; simpl.
    + split; [|done].
      intros k' [->|?]%elem_of_cons; [by left | right; by right].
    + split.
      * intros k' [->|Hk']%elem_of_cons; [right; left|].
        destruct (IHin k' Hk'); [by left | right; by right].
      * intros [Hnotin Hnodup]%NoDup_cons. apply NoDup_cons.
        split; [|by apply IHnodup].
        intros Hin. by destruct (IHin k0 Hin).
Qed.

Lemma dict_get_None {K V} `{EqDecision K} (k : K) (d : list (K * V)) :
  dict_get k d = None ↔ k ∉ d.*1.
Proof.
  induction d as [|[k0 v0] d IH]; simpl.
  - split; [intros _; apply not_elem_of_nil | done].
  - destruct (decide (k0 = k)) as [->|Hne].
    + split; [done|]. intros Hnot. destruct Hnot. left.
    + rewrite IH. split.
      * intros Hnot [?|?]%elem_of_cons; [congruence | done].
      * intros Hnot Hin. apply Hnot. by right.
Qed.

Lemma dict_get_elem_of_NoDup {K V} `{EqDecision K} (k : K) (v : V)
    (d : list (K * V)) :
  NoDup d.*1 → (k, v) ∈ d → dict_get k d = Some v.
Proof.
  induction d as [|[k0 v0] d IH]; simpl.
  - by intros _ ?%not_elem_of_nil.
  - intros [Hnotin Hnodup]%NoDup_cons [[= -> ->]|Hin]%elem_of_cons.
    + by rewrite decide_True.
    + rewrite decide_False; [by apply IH|].
      intros ->. apply Hnotin. apply list_elem_of_fmap. by exists (k, v).
Qed.

Lemma dict_row_keys (fieldnames record : list string) :
  NoDup (fields (dict_row fieldnames record)).*1
  ∧ ∀ k, k ∈ (fields (dict_row fieldnames record)).*1 → k ∈ fieldnames.
Proof.
  assert (∀ (pairs : list (string * string)) d,
            NoDup d.*1 → (∀ k, k ∈ d.*1 → k ∈ fieldnames) →
            (∀ k, k ∈ pairs.*1 → k ∈ fieldnames) →
            let d' := foldl (fun d kv => dict_set kv.1 (Some kv.2) d) d pairs in
            NoDup d'.*1 ∧ ∀ k, k ∈ d'.*1 → k ∈ fieldnames) as Hzip.
  { induction pairs as [|[k v] pairs IH]; intros d Hnodup Hd Hpairs; [done|].
    simpl. destruct (dict_set_keys k (Some v) d) as (Hin & Hnd).
    apply IH; [by apply Hnd| |].
    - intros k' [->|?]%Hin; [apply Hpairs; left | by apply Hd].
    - intros k' Hk'. apply Hpairs. by right. }
  assert (∀ (names : list string) (d : list (string * option string)),
            NoDup d.*1 → (∀ k, k ∈ d.*1 → k ∈ fieldnames) →
            (∀ k, k ∈ names → k ∈ fieldnames) →
            let d' := foldl (fun d k => dict_set k None d) d names in
            NoDup d'.*1 ∧ ∀ k, k ∈ d'.*1 → k ∈ fieldnames) as Hrest.
  { induction names as [|k names IH]; intros d Hnodup Hd Hnames; [done|].
    simpl. destruct (dict_set_keys k None d) as (Hin & Hnd).
    apply IH; [by apply Hnd| |].
    - intros k' [->|?]%Hin; [apply Hnames; left | by apply Hd].
    - intros k' Hk'. apply Hnames. by right. }
  assert (∀ k, k ∈ (zip fieldnames record).*1 → k ∈ fieldnames) as Hsub.
  { intros k ([k1 v] & -> & Hin)%list_elem_of_fmap.
    by apply elem_of_zip_l in Hin. }
  unfold dict_row.
  destruct (Hzip (zip fieldnames record) []) as [Hnd Hin];
    [apply NoDup_nil_2 | by intros ? ?%not_elem_of_nil | done |].
  destruct (_ <? _)%nat; simpl; [done|].
  apply Hrest; [done..|]. intros k Hk. by apply subseteq_drop in Hk.
Qed.

Lemma sample_discovery_Ok :
  get_e_axes_and_lookup float_of_digits sample_csv
  = Ok (["Weight-e"], sample_bounds_found, sample_style_lookup, sample_rows).
Proof. vm_compute. reflexivity. Defined.

Lemma DictReader_rows_shape (fieldnames : list string)
    (records : list (list string)) (row : row_dict) :
  row ∈ DictReader_rows fieldnames records →
  NoDup (fields row).*1
  ∧ (∀ k, k ∈ (fields row).*1 → k ∈ fieldnames)
  ∧ (rest row = None ∨ ∃ x xs, rest row = Some (x :: xs)).
Proof.
  unfold DictReader_rows. intros (record & -> & _)%list_elem_of_fmap.
  destruct (dict_row_keys fieldnames record) as [Hnd Hin].
  split; [done|]. split; [done|].
  unfold dict_row.
  destruct (length fieldnames <? length record)%nat eqn:Hlt; simpl;
    [right | by left].
  apply Nat.ltb_lt in Hlt.
  destruct (drop (length fieldnames) record) as [|x xs] eqn:Hd; [|by eauto].
  apply (f_equal length) in Hd. rewrite length_drop in Hd. simpl in Hd. lia.
Qed.

(** ** Discovery, whenever it returns *)

Lemma get_e_axes_and_lookup_Ok (float : string → option Q)
    (csvfile : list (list string)) (e_axes : list string)
    (axis_minmax : gmap string minmax)
    (style_lookup : gmap string (gmap string Q)) (rows : list row_dict) :
  get_e_axes_and_lookup float csvfile
  = Ok (e_axes, axis_minmax, style_lookup, rows) →
  ∃ fieldnames,
    DictReader_fieldnames csvfile = Some fieldnames
    ∧ e_axes = e_axes_of fieldnames
    ∧ rows = DictReader_rows fieldnames (tail csvfile)
    ∧ build_style_lookup float rows = Ok style_lookup
    ∧ build_axis_minmax float e_axes rows = Ok axis_minmax.
Proof.
  unfold get_e_axes_and_lookup.
  destruct (DictReader_fieldnames csvfile) as [fieldnames|]; [|done].
  intros (sl & Hsl & H)%bind_Ok. apply bind_Ok in H as (mm & Hmm & H).
  injection H as <- <- <- <-. by exists fieldnames.
Qed.

Lemma build_axis_minmax_bounds (float : string → option Q)
    (e_axes : list string) (rows : list row_dict)
    (axis_minmax : gmap string minmax) :
  build_axis_minmax float e_axes rows = Ok axis_minmax →
  (∀ axis, is_Some (axis_minmax !! axis) ↔ axis ∈ e_axes)
  ∧ ∀ axis mm,
      axis_minmax !! axis = Some mm →
      ∃ values,
        column_values float axis rows = Ok values
        ∧ mm_min mm ∈ values ∧ mm_max mm ∈ values
        ∧ ∀ v, v ∈ values → (mm_min mm <= v)%Q ∧ (v <= mm_max mm)%Q.
Proof.
  unfold build_axis_minmax. intros Hrun.
  assert (Hloop := build_axis_minmax_loop float rows e_axes ∅ axis_minmax Hrun).
  assert (∀ axis, is_Some (axis_minmax !! axis) ↔ axis ∈ e_axes) as Hdom.
  { intros axis. destruct (Hloop axis) as [Hin Hout]. split.
    - intros Hsome. destruct (decide (axis ∈ e_axes)) as [|Hnot]; [done|].
      rewrite (Hout Hnot), lookup_empty in Hsome. by destruct Hsome.
    - intros Haxis. destruct (Hin Haxis) as (mm & _ & -> & _). by eexists. }
  split; [done|]. intros axis mm Hmm.
  destruct (Hloop axis) as [Hin _].
  destruct Hin as (mm' & values & Hmm' & Hvalues & Hmin & Hmax).
  { apply Hdom. by rewrite Hmm. }
  rewrite Hmm in Hmm'. injection Hmm' as <-.
  apply py_min_spec in Hmin as [Hmin_in Hmin_le].
  apply py_max_spec in Hmax as [Hmax_in Hmax_le].
  exists values. repeat split; auto.
Qed.



Section DiscoveryConverse.
Variable float : string → option Q.

Lemma lookup_items_Raise (items : list (string * option string)) (e : exn) :
  foldl (fun acc kv => sub ← acc ; lookup_item float sub kv) (Raise e) items
  = Raise e.
Proof. induction items as [|kv items IH]; [done|]. simpl. apply IH. Qed.

Lemma lookup_items_step (items : list (string * option string))
    (kv : string * option string) (sub : gmap string Q) :
  foldl (fun acc kv => sub ← acc ; lookup_item float sub kv) (Ok sub)
        (kv :: items)
  = foldl (fun acc kv => sub ← acc ; lookup_item float sub kv)
          (lookup_item float sub kv) items.
Proof. done. Qed.

Lemma lookup_items_numeric (items : list (string * option string))
    (sub sub' : gmap string Q) :
  foldl (fun acc kv => sub ← acc ; lookup_item float sub kv) (Ok sub) items
  = Ok sub' →
  Forall (numeric_cell float) items.
Proof.
  revert sub. induction items as [|[k [v|]] items IH]; intros sub;
    [constructor| |]; rewrite lookup_items_step; unfold lookup_item.
  - destruct (bool_decide (k ≠ "Instance")) eqn:Hk; simpl.
    + destruct (String.eqb v "") eqn:Hv; simpl.
      * intros H. constructor; [|by eapply IH].
        intros _ Hne. by apply String.eqb_neq in Hne; congruence.
      * unfold float_str. destruct (float v) as [q|] eqn:Hq; simpl.
        -- intros H. constructor; [|by eapply IH]. intros _ _. by exists q.
        -- by rewrite lookup_items_Raise.
    + intros H. constructor; [|by eapply IH].
      apply bool_decide_eq_false in Hk. intros Hne. by destruct Hk.
  - intros H. constructor; [done | by eapply IH].
Qed.

Lemma build_style_lookup_rows (rows : list row_dict)
    (acc style_lookup : gmap string (gmap string Q)) :
  for_each (fun row style_lookup =>
              style ← row_style row ;
              sub ← row_lookup float row ;
              Ok (<[style := sub]> style_lookup))
           rows acc = Ok style_lookup →
  Forall (fun row =>
            (∃ s, dict_get "Instance" (fields row) = Some (Some s))
            ∧ (∀ x xs, rest row ≠ Some (x :: xs))
            ∧ Forall (numeric_cell float) (fields row)) rows.
Proof.
  revert acc. induction rows as [|row rows IH]; intros acc; [constructor|].
  rewrite for_each_cons. intros (acc' & Hbody & Hrest)%bind_Ok.
  constructor; [|by eapply IH].
  apply bind_Ok in Hbody as (style & Hstyle & Hbody).
  apply bind_Ok in Hbody as (sub & Hsub & _).
  unfold row_style in Hstyle. unfold row_lookup in Hsub.
  apply bind_Ok in Hsub as (sub0 & Hitems & Hsub).
  split; [|split].
  - destruct (dict_get "Instance" (fields row)) as [[s|]|]; [|done..].
    by exists s.
  - intros x xs Heq. by rewrite Heq in Hsub.
  - by eapply lookup_items_numeric.
Qed.
End DiscoveryConverse.

(** X2.  Discovery on a file with a header returns if and only if every
    row is well formed (it has an [Instance] field, no surplus fields, and
    every other non-empty cell is accepted by [float]) and every discovered
    extension axis has a non-empty cell in at least one row. *)
Theorem discovery_returns_iff (float : string → option Q)
    (fieldnames : list string) (records : list (list string)) :
  (∃ r, get_e_axes_and_lookup float (fieldnames :: records) = Ok r)
  ↔ Forall (well_formed_row float) (DictReader_rows fieldnames records)
    ∧ ∀ axis, axis ∈ e_axes_of fieldnames →
        ∃ row, row ∈ DictReader_rows fieldnames records
               ∧ is_Some (row_value axis row).
Proof.
  set (rows := DictReader_rows fieldnames records). split.
  - intros [[[[e_axes axis_minmax] style_lookup] rows'] Hrun].
    apply get_e_axes_and_lookup_Ok
      in Hrun as (fieldnames' & [= <-] & -> & -> & Hsl & Hmm).
    simpl in *. fold rows in Hsl, Hmm. split.
    + apply build_style_lookup_rows in Hsl.
      apply Forall_forall. intros row Hrow.
      rewrite Forall_forall in Hsl.
      destruct (Hsl row Hrow) as (Hinst & Hrest & Hcells).
      split; [done|]. split; [|done].
      destruct (DictReader_rows_shape _ _ _ Hrow)
        as (_ & _ & [Hnone|(x & xs & Hsome)]); [done|].
      by destruct (Hrest x xs).
    + intros axis Haxis.
      destruct (build_axis_minmax_bounds _ _ _ _ Hmm) as [Hdom Hbounds].
      destruct (proj2 (Hdom axis) Haxis) as [mm Hlook].
      destruct (Hbounds axis mm Hlook) as (values & Hvalues & Hin & _).
      unfold column_values in Hvalues. apply map_result_Ok in Hvalues.
      destruct (omap (row_value axis) rows) as [|cell cells] eqn:Hcells.
      { apply Forall2_nil_inv_l in Hvalues. rewrite Hvalues in Hin.
        by apply not_elem_of_nil in Hin. }
      assert (cell ∈ omap (row_value axis) rows) as Hcell
        by (rewrite Hcells; left).
      apply list_elem_of_omap in Hcell as (row & Hrow & Hv).
      exists row. split; [done|]. by exists cell.
  - intros [Hwf Hcols].
    destruct (build_style_lookup_total float rows ∅ Hwf)
      as [style_lookup Hsl].
    destruct (build_axis_minmax_total float rows (e_axes_of fieldnames) ∅)
      as [axis_minmax Hmm].
    { intros axis Haxis.
      destruct (column_values_total float fieldnames axis rows Haxis Hwf)
        as [values Hvalues].
      exists values. split; [done|].
      eapply column_values_nonempty; eauto. }
    eexists. unfold get_e_axes_and_lookup, build_style_lookup,
      build_axis_minmax.
    simpl. fold rows. rewrite Hsl. simpl. by rewrite Hmm.
Qed.

(** ** The style lookup *)

Section StyleLookup.
Variable float : string → option Q.

Lemma row_lookup_spec (row : row_dict) (sub : gmap string Q) :
  NoDup (fields row).*1 →
  row_lookup float row = Ok sub →
  ∀ k, sub !! k
       = if decide (k = "Instance") then None
         else row_value k row ≫= float.
Proof.
  intros Hnodup Hrun. unfold row_lookup in Hrun.
  apply bind_Ok in Hrun as (sub' & Hitems & Hrest).
  assert (sub' = sub) as -> by (by destruct (rest row) as [[|? ?]|]; simplify_eq).
  clear Hrest. unfold row_value.
  assert (∀ items (acc : gmap string Q),
            NoDup items.*1 →
            foldl (fun acc kv => sub ← acc ; lookup_item float sub kv)
                  (Ok acc) items = Ok sub →
            ∀ k, sub !! k
                 = match dict_get k items with
                   | Some (Some v) =>
                       if decide (k = "Instance") then acc !! k
                       else if String.eqb v "" then acc !! k else float v
                   | _ => acc !! k
                   end) as Hgen.
  { clear. induction items as [|[k0 c0] items IH]; intros acc Hnodup Hrun k.
    - by injection Hrun as <-.
    - apply NoDup_cons in Hnodup as [Hnotin Hnodup].
      rewrite lookup_items_step in Hrun.
      destruct (lookup_item float acc (k0, c0)) as [acc1|e] eqn:Hstep;
        [|by rewrite lookup_items_Raise in Hrun].
      rewrite (IH acc1 Hnodup Hrun k). simpl.
      destruct (decide (k0 = k)) as [->|Hne].
      + simpl in Hnotin. apply dict_get_None in Hnotin. rewrite Hnotin.
        unfold lookup_item in Hstep. destruct c0 as [v|]; [|by simplify_eq].
        destruct (decide (k = "Instance")) as [->|Hk].
        * rewrite bool_decide_eq_false_2 in Hstep by (intros H; by apply H).
          simpl in Hstep. by simplify_eq.
        * rewrite bool_decide_eq_true_2 in Hstep by done. simpl in Hstep.
          destruct (String.eqb v ""); simpl in Hstep; [by simplify_eq|].
          unfold float_str in Hstep. destruct (float v) as [q|]; [|done].
          simpl in Hstep. injection Hstep as <-.
          by rewrite lookup_insert_eq.
      + assert (acc1 !! k = acc !! k) as Hsame.
        { unfold lookup_item in Hstep. destruct c0 as [v|]; [|by simplify_eq].
          destruct (_ && _); [|by simplify_eq].
          apply bind_Ok in Hstep as (q & _ & [= <-]).
          by rewrite lookup_insert_ne. }
        rewrite Hsame. done. }
  intros k. rewrite (Hgen _ _ Hnodup Hitems k), lookup_empty.
  destruct (dict_get k (fields row)) as [[v|]|];
    destruct (decide (k = "Instance")); try done.
  by destruct (String.eqb v "").
Qed.

Lemma style_lookup_frame (rows : list row_dict) (name : string)
    (acc style_lookup : gmap string (gmap string Q)) :
  for_each (fun row style_lookup =>
              style ← row_style row ;
              sub ← row_lookup float row ;
              Ok (<[style := sub]> style_lookup))
           rows acc = Ok style_lookup →
  (∀ row, row ∈ rows → row_style row ≠ Ok name) →
  style_lookup !! name = acc !! name.
Proof.
  revert acc. induction rows as [|row rows IH]; intros acc.
  - by intros [= <-].
  - rewrite for_each_cons. intros (acc' & Hbody & Hrest)%bind_Ok Hnone.
    rewrite (IH _ Hrest) by (intros; apply Hnone; by right).
    apply bind_Ok in Hbody as (style & Hstyle & Hbody).
    apply bind_Ok in Hbody as (sub & _ & [= <-]).
    rewrite lookup_insert_ne; [done|].
    intros ->. by apply (Hnone row); [left|].
Qed.


Lemma style_lookup_last (before after : list row_dict) (row : row_dict)
    (name : string) (acc style_lookup : gmap string (gmap string Q)) :
  for_each (fun row style_lookup =>
              style ← row_style row ;
              sub ← row_lookup float row ;
              Ok (<[style := sub]> style_lookup))
           (before ++ row :: after) acc = Ok style_lookup →
  row_style row = Ok name →
  (∀ r, r ∈ after → row_style r ≠ Ok name) →
  ∃ sub, row_lookup float row = Ok sub ∧ style_lookup !! name = Some sub.
Proof.
  rewrite for_each_app. intros (acc1 & _ & Hrun)%bind_Ok Hstyle Hafter.
  rewrite for_each_cons in Hrun. apply bind_Ok in Hrun as (acc2 & Hbody & Hrun).
  rewrite (style_lookup_frame _ _ _ _ Hrun Hafter).
  rewrite Hstyle in Hbody. simpl in Hbody.
  apply bind_Ok in Hbody as (sub & Hsub & [= <-]).
  exists sub. split; [done|]. by rewrite lookup_insert_eq.
Qed.
End StyleLookup.

Lemma style_lookup_present (float : string → option Q)
    (rows : list row_dict) (name : string)
    (acc style_lookup : gmap string (gmap string Q)) :
  for_each (fun row style_lookup =>
              style ← row_style row ;
              sub ← row_lookup float row ;
              Ok (<[style := sub]> style_lookup))
           rows acc = Ok style_lookup →
  is_Some (acc !! name)
  ∨ (∃ row, row ∈ rows ∧ row_style row = Ok name) →
  is_Some (style_lookup !! name).
Proof.
  revert acc. induction rows as [|row rows IH]; intros acc.
  - intros [= <-] [H|(row & Hrow & _)]; [done|].
    by apply not_elem_of_nil in Hrow.
  - rewrite for_each_cons. intros (acc' & Hbody & Hrest)%bind_Ok Hcase.
    apply (IH _ Hrest).
    apply bind_Ok in Hbody as (style & Hstyle & Hbody).
    apply bind_Ok in Hbody as (sub & _ & [= <-]).
    destruct (decide (style = name)) as [->|Hne].
    { left. by rewrite lookup_insert_eq. }
    rewrite lookup_insert_ne by done.
    destruct Hcase as [H|(r & Hr & Hs)]; [by left|].
    apply elem_of_cons in Hr as [->|Hr]; [congruence|].
    right. by exists r.
Qed.

(** X3.  Whenever discovery returns, the style lookup has a key exactly for
    the stripped [Instance] cells of the rows; under a name it holds the
    record of the last row with that name, earlier rows of the same name
    being replaced as a whole; and that record maps every column other than
    [Instance] whose cell in the row is non-empty to [float] of the cell,
    and has no other key. *)
Theorem style_lookup_last_row_wins (float : string → option Q)
    (csvfile : list (list string)) (e_axes : list string)
    (axis_minmax : gmap string minmax)
    (style_lookup : gmap string (gmap string Q)) (rows : list row_dict) :
  get_e_axes_and_lookup float csvfile
  = Ok (e_axes, axis_minmax, style_lookup, rows) →
  ∀ name,
    (style_lookup !! name = None
     ↔ ∀ row, row ∈ rows → row_style row ≠ Ok name)
    ∧ ∀ before row after,
        rows = before ++ row :: after →
        row_style row = Ok name →
        (∀ r, r ∈ after → row_style r ≠ Ok name) →
        ∃ sub,
          style_lookup !! name = Some sub
          ∧ ∀ k, sub !! k
                 = if decide (k = "Instance") then None
                   else row_value k row ≫= float.
Proof.
  intros (fieldnames & _ & _ & Hrows & Hsl & _)%get_e_axes_and_lookup_Ok name.
  unfold build_style_lookup in Hsl. split; [split|].
  - intros Hnone row Hrow Hstyle.
    assert (is_Some (style_lookup !! name)) as Hsome.
    { eapply style_lookup_present; [exact Hsl|]. right. by exists row. }
    rewrite Hnone in Hsome. by destruct Hsome.
  - intros Hnone.
    by rewrite (style_lookup_frame _ _ _ _ _ Hsl Hnone), lookup_empty.
  - intros before row after Hsplit Hstyle Hafter.
    rewrite Hsplit in Hsl.
    destruct (style_lookup_last _ _ _ _ _ _ _ Hsl Hstyle Hafter)
      as (sub & Hsub & Hlook).
    exists sub. split; [done|].
    apply row_lookup_spec; [|done].
    eapply DictReader_rows_shape. rewrite <- Hrows, Hsplit.
    apply elem_of_app. right. left.
Qed.

Lemma style_lookup_last_row_wins_witness :
  sample_style_lookup !! "Light" = None
  ∧ ∃ sub, sample_style_lookup !! "Bold" = Some sub
           ∧ sub !! "Width" = Some 200%Q.
Proof.
  split.
  - apply (style_lookup_last_row_wins float_of_digits sample_csv
             ["Weight-e"] sample_bounds_found sample_style_lookup
             sample_rows sample_discovery_Ok "Light").
    intros row Hrow. apply list_elem_of_singleton in Hrow. subst row.
    vm_compute. discriminate.
  - destruct (style_lookup_last_row_wins float_of_digits sample_csv
                ["Weight-e"] sample_bounds_found sample_style_lookup
                sample_rows sample_discovery_Ok "Bold") as [_ Hlast].
    destruct (Hlast [] (dict_row sample_header ["Bold"; "100"; "200"]) [])
      as (sub & Hsub & Hcells).
    + reflexivity.
    + reflexivity.
    + intros r Hr. by apply not_elem_of_nil in Hr.
    + exists sub. split; [exact Hsub|]. rewrite (Hcells "Width").
      reflexivity.
Defined.





(** X5.  A mapping whose header has no [Instance] column and which has at
    least one non-blank record makes discovery raise [KeyError] for
    ['Instance'], whatever else the file holds. *)
Theorem discovery_without_instance_column (float : string → option Q)
    (fieldnames : list string) (records : list (list string)) :
  "Instance" ∉ fieldnames →
  (∃ record, record ∈ records ∧ record ≠ []) →
  get_e_axes_and_lookup float (fieldnames :: records)
  = Raise (KeyError "Instance").
Proof.
  intros Hmissing (record & Hrecord & Hne).
  unfold get_e_axes_and_lookup. simpl.
  destruct (DictReader_rows fieldnames records) as [|row rows] eqn:Hrows.
  { assert (dict_row fieldnames record ∈ DictReader_rows fieldnames records)
      as Hin.
    { unfold DictReader_rows. apply list_elem_of_fmap. exists record.
      split; [done|]. apply list_elem_of_filter. split; [|done].
      by destruct record. }
    rewrite Hrows in Hin. by apply not_elem_of_nil in Hin. }
  assert (row ∈ DictReader_rows fieldnames records) as Hrow
    by (rewrite Hrows; left).
  destruct (DictReader_rows_shape _ _ _ Hrow) as (_ & Hkeys & _).
  assert (dict_get "Instance" (fields row) = None) as Hget.
  { apply dict_get_None. intros Hin. by apply Hmissing, Hkeys. }
  assert (row_style row = Raise (KeyError "Instance")) as Hstyle
    by (unfold row_style; by rewrite Hget).
  unfold build_style_lookup. rewrite for_each_cons. by rewrite Hstyle.
Qed.

Lemma discovery_without_instance_column_witness :
  get_e_axes_and_lookup float_of_digits
    [["Style"; "Weight-e"]; ["Bold"; "100"]]
  = Raise (KeyError "Instance").
Proof.
  apply (discovery_without_instance_column float_of_digits
           ["Style"; "Weight-e"] [["Bold"; "100"]]).
  - intros Hin. apply elem_of_cons in Hin as [Heq|Hin]; [discriminate Heq|].
    apply list_elem_of_singleton in Hin. discriminate Hin.
  - exists ["Bold"; "100"]. split; [left | discriminate].
Defined.

(** ** The axis merge without bounds for every axis *)

Lemma ensure_loop_appends_absent (existing : list string)
    (axis_minmax : gmap string minmax) (l : list string)
    (doc : DesignSpaceDocument) :
  (∀ axis, axis ∈ l → axis ∈ existing ∨ is_Some (axis_minmax !! axis)) →
  for_each (ensure_axis existing axis_minmax) l doc
  = Ok (with_axes doc (axes doc ++ axes_to_add existing l axis_minmax)).
Proof.
  revert doc. induction l as [|x l IH]; intros doc Hmm.
  - simpl. unfold with_axes. rewrite app_nil_r. by destruct doc.
  - rewrite for_each_cons. unfold axes_to_add.
    rewrite omap_cons. fold (axes_to_add existing l axis_minmax).
    destruct (decide (x ∈ existing)) as [Hin|Hnot].
    + rewrite ensure_axis_present by done.
      rewrite bool_decide_eq_false_2 by (by intros Hnot).
      simpl. apply IH. intros; apply Hmm; by right.
    + destruct (Hmm x) as [?|[mm Hlook]]; [left | done |].
      rewrite (ensure_axis_absent _ _ _ _ _ Hnot Hlook).
      rewrite bool_decide_eq_true_2, Hlook by done. simpl.
      rewrite IH by (intros; apply Hmm; by right).
      unfold with_axes. simpl. by rewrite <- app_assoc.
Qed.

Lemma ensure_loop_Ok (existing : list string)
    (axis_minmax : gmap string minmax) (l : list string)
    (doc doc' : DesignSpaceDocument) :
  for_each (ensure_axis existing axis_minmax) l doc = Ok doc' →
  ∀ axis, axis ∈ l → axis ∈ existing ∨ is_Some (axis_minmax !! axis).
Proof.
  revert doc. induction l as [|x l IH]; intros doc Hrun axis Haxis.
  - by apply not_elem_of_nil in Haxis.
  - rewrite for_each_cons in Hrun.
    apply bind_Ok in Hrun as (doc1 & Hstep & Hrest).
    apply elem_of_cons in Haxis as [->|Haxis]; [|by eapply IH].
    destruct (decide (x ∈ existing)) as [?|Hnot]; [by left | right].
    unfold ensure_axis, getitem in Hstep.
    rewrite bool_decide_eq_true_2 in Hstep by done.
    by destruct (axis_minmax !! x).
Qed.

(** X6.  The axis merge indexes the bounds only for extension axes that the
    document does not have yet: it returns exactly when each of those has
    bounds, leaving axes that are already present as they are even when
    they have none; otherwise it raises [KeyError] for the first extension
    axis that is neither in the document nor in the bounds. *)
Theorem ensure_e_axes_needs_bounds_of_absent_axes
    (doc : DesignSpaceDocument) (e_axes : list string)
    (axis_minmax : gmap string minmax) :
  ((∃ doc', ensure_e_axes doc e_axes axis_minmax = Ok doc')
   ↔ ∀ axis, axis ∈ e_axes →
       axis ∈ map axis_name (axes doc) ∨ is_Some (axis_minmax !! axis))
  ∧ ((∀ axis, axis ∈ e_axes →
        axis ∈ map axis_name (axes doc) ∨ is_Some (axis_minmax !! axis)) →
     ensure_e_axes doc e_axes axis_minmax
     = Ok (with_axes doc
             (axes doc
              ++ axes_to_add (map axis_name (axes doc)) e_axes axis_minmax)))
  ∧ ∀ before axis after,
      e_axes = before ++ axis :: after →
      (∀ a, a ∈ before →
         a ∈ map axis_name (axes doc) ∨ is_Some (axis_minmax !! a)) →
      axis ∉ map axis_name (axes doc) →
      axis_minmax !! axis = None →
      ensure_e_axes doc e_axes axis_minmax = Raise (KeyError axis).
Proof.
  unfold ensure_e_axes. split; [split|split].
  - intros [doc' Hrun]. by eapply ensure_loop_Ok.
  - intros Hmm. eexists. by apply ensure_loop_appends_absent.
  - apply ensure_loop_appends_absent.
  - intros before axis after -> Hbefore Hnot Hnone.
    rewrite for_each_app, (ensure_loop_appends_absent _ _ _ _ Hbefore).
    assert (∀ d, ensure_axis (map axis_name (axes doc)) axis_minmax axis d
                 = Raise (KeyError axis)) as Hstep.
    { intros d. unfold ensure_axis, getitem.
      rewrite bool_decide_eq_true_2 by done. by rewrite Hnone. }
    change (for_each (ensure_axis (map axis_name (axes doc)) axis_minmax)
              (axis :: after)
              (with_axes doc
                 (axes doc
                  ++ axes_to_add (map axis_name (axes doc)) before
                       axis_minmax))
            = Raise (KeyError axis)).
    by rewrite for_each_cons, Hstep.
Qed.

Lemma ensure_e_axes_needs_bounds_of_absent_axes_witness :
  ensure_e_axes sample_doc ["Weight"; "Slant-e"; "Weight-e"]
    sample_axis_minmax
  = Raise (KeyError "Slant-e").
Proof.
  destruct (ensure_e_axes_needs_bounds_of_absent_axes sample_doc
              ["Weight"; "Slant-e"; "Weight-e"] sample_axis_minmax)
    as (_ & _ & Hraise).
  apply (Hraise ["Weight"] "Slant-e" ["Weight-e"]).
  - reflexivity.
  - intros a Ha. apply list_elem_of_singleton in Ha. subst a.
    left. simpl. left.
  - simpl. intros Hin. apply list_elem_of_singleton in Hin. discriminate Hin.
  - reflexivity.
Defined.

(** ** Duplication on any file system *)

Section DuplicationAnywhere.
Variable relpath : string → string → string.
Variable e_axes : list string.
Variable axis_minmax : gmap string minmax.
Hypothesis bounds :
  ∀ axis, axis ∈ e_axes → is_Some (axis_minmax !! axis).




Lemma duplicate_loop_sources (srcs : list SourceDescriptor)
    (st : dup_state) :
  ∃ st' originals duplicates copied,
    duplicate_loop relpath e_axes axis_minmax srcs st = Ok st'
    ∧ st_sources st' = st_sources st ++ originals
    ∧ st_new_sources st' = st_new_sources st ++ duplicates
    ∧ Forall2
        (fun source original =>
           ∃ location,
             original = with_location source location
             ∧ moved_to mm_min e_axes axis_minmax (src_location source)
                        location)
        srcs originals
    ∧ copied `sublist_of` srcs
    ∧ Forall2
        (fun source duplicate =>
           ∃ location new_location,
             duplicate
             = make_new_source relpath e_axes
                 (with_location source location) new_location
             ∧ moved_to mm_max e_axes axis_minmax (src_location source)
                        new_location)
        copied duplicates.
Proof.
  unfold duplicate_loop. revert st.
  induction srcs as [|source srcs IH]; intros st.
  - exists st, [], [], []. rewrite !app_nil_r. by repeat split.
  - rewrite for_each_cons.
    destruct (set_e_axes_spec mm_min axis_minmax e_axes
                (src_location source) bounds) as (location & Hmin & Hl1).
    destruct (set_e_axes_spec mm_max axis_minmax e_axes location bounds)
      as (new_location & Hmax & Hl2).
    destruct (decide (orig_ufo_path source ∈ st_fs st)) as [Hin|Hnot].
    + destruct (duplicate_source_copy relpath e_axes axis_minmax bounds
                  source st Hin)
        as (location' & new_location' & Hmin' & Hmax' & ->).
      rewrite Hmin in Hmin'. injection Hmin' as <-.
      rewrite Hmax in Hmax'. injection Hmax' as <-.
      simpl.
      match goal with
      | |- context [for_each _ _ ?st1] =>
          destruct (IH st1)
            as (st' & originals & duplicates & copied & -> & Hsrc & Hnew
                & Horig & Hsub & Hdup)
      end.
      simpl in *.
      exists st', (with_location source location :: originals),
        (make_new_source relpath e_axes (with_location source location)
           new_location :: duplicates), (source :: copied).
      split; [done|]. rewrite Hsrc, Hnew, <- !app_assoc.
      split; [done|]. split; [done|]. split; [|split].
      * constructor; [|done]. by exists location.
      * by constructor.
      * constructor; [|done]. exists location, new_location.
        split; [done|]. intros k. rewrite Hl2.
        destruct (decide (k ∈ e_axes)) as [Hk|Hk]; [done|].
        by rewrite Hl1, decide_False.
    + destruct (duplicate_source_skip relpath e_axes axis_minmax bounds
                  source st Hnot) as (location' & Hmin' & ->).
      rewrite Hmin in Hmin'. injection Hmin' as <-.
      simpl.
      match goal with
      | |- context [for_each _ _ ?st1] =>
          destruct (IH st1)
            as (st' & originals & duplicates & copied & -> & Hsrc & Hnew
                & Horig & Hsub & Hdup)
      end.
      simpl in *.
      exists st', (with_location source location :: originals),
        duplicates, copied.
      split; [done|]. rewrite Hsrc, Hnew, <- !app_assoc.
      split; [done|]. split; [done|]. split; [|split]; [|by constructor|done].
      constructor; [|done]. by exists location.
Qed.
End DuplicationAnywhere.





(** X9.  With bounds for every extension axis, on any file system, the
    sources of the result are the originals, in order and with file name,
    name, family name and style name as before, followed by the
    duplicates; the duplicates belong, in order, to a sub-list of the
    sources, and the duplicate of a source has the file name of its
    destination relative to [master_ufo], the base name of the master with
    the suffix as name, the family name of the source, [f"{styleName}"] of
    the source followed by the suffix as style name (so ["None-..."] for a
    source without style name), and the coordinates of the source with
    every extension axis at its maximum. *)
Theorem duplicates_describe_their_master
    (relpath : string → string → string) (e_axes : list string)
    (axis_minmax : gmap string minmax) (fs : gset string)
    (doc : DesignSpaceDocument) :
  (∀ axis, axis ∈ e_axes → is_Some (axis_minmax !! axis)) →
  ∃ fs' doc' trace originals duplicates copied,
    duplicate_sources_and_update_designspace relpath e_axes axis_minmax fs doc
    = Ok (fs', doc', trace)
    ∧ sources doc' = originals ++ duplicates
    ∧ Forall2
        (fun source original =>
           src_filename original = src_filename source
           ∧ src_name original = src_name source
           ∧ src_familyName original = src_familyName source
           ∧ src_styleName original = src_styleName source)
        (sources doc) originals
    ∧ copied `sublist_of` sources doc
    ∧ Forall2
        (fun source duplicate =>
           src_filename duplicate
           = relpath ("master_ufo/" +:+ new_ufo_name e_axes source)
                     "master_ufo"
           ∧ src_name duplicate
             = Some ((splitext (basename (src_filename source))).1
                     +:+ "-" +:+ max_suffix e_axes)
           ∧ src_familyName duplicate = src_familyName source
           ∧ src_styleName duplicate
             = Some (format_opt (src_styleName source) +:+ "-"
                     +:+ max_suffix e_axes)
           ∧ moved_to mm_max e_axes axis_minmax (src_location source)
                      (src_location duplicate))
        copied duplicates.
Proof.
  intros Hbounds.
  destruct (duplicate_loop_sources relpath e_axes axis_minmax Hbounds
              (sources doc) (initial_state fs))
    as (st' & originals & duplicates & copied & Hrun & Hsrc & Hnew & Horig
        & Hsub & Hdup).
  exists (st_fs st'). eexists. exists (st_trace st'), originals, duplicates,
    copied.
  split.
  { unfold duplicate_sources_and_update_designspace. by rewrite Hrun. }
  simpl. rewrite Hsrc, Hnew. split; [done|]. split; [|split; [done|]].
  - eapply Forall2_impl; [exact Horig|].
    by intros source original (location & -> & _).
  - eapply Forall2_impl; [exact Hdup|].
    intros source duplicate (location & new_location & -> & Hmoved).
    split; [|done]. simpl.
    change (new_ufo_path e_axes (with_location source location))
      with (new_ufo_path e_axes source).
    unfold new_ufo_path, UFO_OUTPUT_DIR.
    by rewrite path_join_relative by apply new_ufo_name_not_absolute.
Qed.

Lemma duplicates_describe_their_master_witness :
  ∃ fs' doc' trace originals duplicates,
    duplicate_sources_and_update_designspace sample_relpath ["Weight-e"]
      sample_axis_minmax sample_fs sample_doc = Ok (fs', doc', trace)
    ∧ sources doc' = originals ++ duplicates
    ∧ length originals = 1%nat.
Proof.
  destruct (duplicates_describe_their_master sample_relpath ["Weight-e"]
              sample_axis_minmax sample_fs sample_doc sample_bounds)
    as (fs' & doc' & trace & originals & duplicates & copied & Hrun & Hsrc
        & Horig & Hsub & Hdup).
  exists fs', doc', trace, originals, duplicates.
  split; [exact Hrun|]. split; [exact Hsrc|].
  by rewrite <- (Forall2_length _ _ _ Horig).
Defined.

(** ** The instance pass: what it leaves alone, and missing bounds *)

(** X10.  With bounds for every extension axis, the instance pass keeps the
    number and order of the instances and, for every instance, its
    coordinates on every axis that is not an extension axis; with at least
    one extension axis every instance has a location afterwards, also one
    that had none; with no extension axis every instance is returned as it
    was. *)
Theorem instance_pass_keeps_other_coordinates (doc : DesignSpaceDocument)
    (e_axes : list string) (axis_minmax : gmap string minmax)
    (style_lookup : gmap string (gmap string Q)) :
  (∀ axis, axis ∈ e_axes → is_Some (axis_minmax !! axis)) →
  ∃ doc',
    update_instances_with_e_axes doc e_axes axis_minmax style_lookup = Ok doc'
    ∧ Forall2
        (fun instance instance' =>
           (∀ axis, axis ∉ e_axes →
              coordinate instance' axis = coordinate instance axis)
           ∧ (e_axes ≠ [] → is_Some (inst_location instance'))
           ∧ (e_axes = [] → instance' = instance))
        (instances doc) (instances doc').
Proof.
  intros Hmm.
  destruct (map_result_total
              (update_instance e_axes axis_minmax style_lookup)
              (instances doc)) as [insts Hinsts].
  { intros instance _.
    destruct (update_instance_loop axis_minmax style_lookup
                (inst_styleName instance) e_axes instance Hmm)
      as (instance' & Hrun & _).
    by exists instance'. }
  eexists. split.
  { unfold update_instances_with_e_axes. rewrite Hinsts. reflexivity. }
  simpl. apply map_result_Ok in Hinsts.
  eapply Forall2_impl; [exact Hinsts|]. clear Hinsts.
  intros instance instance' Hrun.
  destruct (update_instance_loop axis_minmax style_lookup
              (inst_styleName instance) e_axes instance Hmm)
    as (instance'' & Hrun' & _ & Hcoord).
  unfold update_instance in Hrun. rewrite Hrun' in Hrun.
  injection Hrun as <-. split; [|split].
  - intros axis Hnot. by apply Hcoord.
  - destruct e_axes as [|axis l]; [done|]. intros _.
    destruct (Hcoord axis) as [Hin _].
    destruct Hin as (mm & _ & Hsome); [left|].
    unfold coordinate in Hsome.
    by destruct (inst_location instance'').
  - intros ->. by injection Hrun' as <-.
Qed.

Lemma instance_pass_keeps_other_coordinates_witness :
  ∃ doc',
    update_instances_with_e_axes sample_doc ["Weight-e"] sample_axis_minmax
      sample_style_lookup = Ok doc'
    ∧ map (fun instance => coordinate instance "Weight") (instances doc')
      = [Some 700%Q; None].
Proof.
  destruct (instance_pass_keeps_other_coordinates sample_doc ["Weight-e"]
              sample_axis_minmax sample_style_lookup sample_bounds)
    as (doc' & Hrun & Hall).
  exists doc'. split; [exact Hrun|].
  apply Forall2_cons_inv_l in Hall as (i1 & l1 & (H1 & _) & Hall & ->).
  apply Forall2_cons_inv_l in Hall as (i2 & l2 & (H2 & _) & Hall & ->).
  apply Forall2_nil_inv_l in Hall as ->.
  simpl. rewrite H1, H2; [reflexivity| |];
    intros Hin; apply list_elem_of_singleton in Hin; discriminate Hin.
Defined.

(** X11.  The instance pass indexes the bounds only while it processes an
    instance: on a document without instances it returns the document as it
    is, whatever the bounds; on a document with an instance it raises
    [KeyError] for the first extension axis that has no bounds. *)
Theorem instance_pass_missing_bounds (doc : DesignSpaceDocument)
    (e_axes : list string) (axis_minmax : gmap string minmax)
    (style_lookup : gmap string (gmap string Q)) :
  (instances doc = [] →
   update_instances_with_e_axes doc e_axes axis_minmax style_lookup = Ok doc)
  ∧ ∀ before axis after,
      instances doc ≠ [] →
      e_axes = before ++ axis :: after →
      (∀ a, a ∈ before → is_Some (axis_minmax !! a)) →
      axis_minmax !! axis = None →
      update_instances_with_e_axes doc e_axes axis_minmax style_lookup
      = Raise (KeyError axis).
Proof.
  unfold update_instances_with_e_axes. split.
  - intros Hnone. rewrite Hnone. simpl. destruct doc. simpl in *.
    by rewrite Hnone.
  - intros before axis after Hsome -> Hbefore Hnone.
    destruct (instances doc) as [|instance rest]; [done|]. simpl.
    assert (update_instance (before ++ axis :: after) axis_minmax
              style_lookup instance = Raise (KeyError axis)) as ->; [|done].
    assert (∀ i, update_instance_axis axis_minmax style_lookup
                   (inst_styleName instance) axis i = Raise (KeyError axis))
      as Hstep.
    { intros i. unfold update_instance_axis, getitem. by rewrite Hnone. }
    unfold update_instance. rewrite for_each_app.
    destruct (update_instance_loop axis_minmax style_lookup
                (inst_styleName instance) before instance Hbefore)
      as (instance' & -> & _).
    change (for_each
              (update_instance_axis axis_minmax style_lookup
                 (inst_styleName instance)) (axis :: after) instance'
            = Raise (KeyError axis)).
    by rewrite for_each_cons, Hstep.
Qed.

Lemma instance_pass_missing_bounds_witness :
  update_instances_with_e_axes sample_doc ["Weight-e"; "Slant-e"]
    sample_axis_minmax sample_style_lookup
  = Raise (KeyError "Slant-e").
Proof.
  destruct (instance_pass_missing_bounds sample_doc ["Weight-e"; "Slant-e"]
              sample_axis_minmax sample_style_lookup) as [_ Hraise].
  apply (Hraise ["Weight-e"] "Slant-e" []).
  - discriminate.
  - reflexivity.
  - apply sample_bounds.
  - reflexivity.
Defined.

(** ** Axis defaults of any serialized document *)

Lemma min_values_loop_outside (axis_names : list string)
    (srcs : list SourceDescriptor) (min_values min_values' : gmap string pyfloat)
    (k : string) :
  (∀ axis, axis ∈ axis_names → is_Some (min_values !! axis)) →
  for_each (min_values_of_source axis_names) srcs min_values
  = Ok min_values' →
  k ∉ axis_names →
  min_values' !! k = min_values !! k.
Proof.
  revert min_values. induction srcs as [|source srcs IH];
    intros min_values Hdom Hrun Hk.
  - by injection Hrun as <-.
  - rewrite for_each_cons in Hrun.
    destruct (min_values_of_source_spec axis_names source min_values Hdom)
      as (min_values1 & Hstep & Hlook).
    rewrite Hstep in Hrun. simpl in Hrun.
    rewrite (IH min_values1); [|  |done|done].
    + by rewrite Hlook, decide_False.
    + intros axis Haxis. rewrite Hlook, decide_True by done.
      apply min_step_is_Some. by apply Hdom.
Qed.

Lemma compute_min_values_keys (doc : DesignSpaceDocument) :
  ∃ min_values,
    compute_min_values doc = Ok min_values
    ∧ ∀ k, min_values !! k
           = if decide (k ∈ map axis_name (axes doc))
             then Some (foldl min_with Inf (source_coordinates doc k))
             else None.
Proof.
  destruct (compute_min_values_spec doc) as (min_values & Hrun & Hlook).
  exists min_values. split; [done|]. intros k.
  destruct (decide (k ∈ map axis_name (axes doc))) as [Hk|Hk]; [by apply Hlook|].
  unfold compute_min_values in Hrun.
  rewrite (min_values_loop_outside _ _ _ _ k
             ltac:(intros axis Haxis; rewrite initial_min_values_lookup;
                   by rewrite decide_True) Hrun Hk).
  by rewrite initial_min_values_lookup, decide_False.
Qed.

Lemma source_coordinates_none (doc : DesignSpaceDocument) (axis : string) :
  (∀ source, source ∈ sources doc → src_location source !! axis = None) →
  source_coordinates doc axis = [].
Proof.
  unfold source_coordinates. induction (sources doc) as [|s l IH];
    intros Hnone; [done|].
  rewrite omap_cons, (Hnone s) by left. apply IH. intros; apply Hnone.
  by right.
Qed.

(** X12.  On any list of [<axis>] elements and any document, the defaults
    pass returns, keeping the number and the order of the elements, their
    names and their other attributes; an element without a name, or whose
    name is not the name of an axis of the document, is returned as it was;
    and an element named by an axis of the document on which no source has
    a coordinate is given the default [str(float('inf'))]. *)
Theorem defaults_pass_on_any_elements (str : pyfloat → string)
    (axis_elems : list axis_elem) (doc : DesignSpaceDocument) :
  ∃ axis_elems',
    set_axis_defaults_to_minimums str axis_elems doc = Ok axis_elems'
    ∧ Forall2
        (fun elem elem' =>
           elem_name elem' = elem_name elem
           ∧ elem_attrs elem' = elem_attrs elem
           ∧ ((∀ name, elem_name elem = Some name →
                 name ∉ map axis_name (axes doc)) →
              elem' = elem)
           ∧ ∀ name,
               elem_name elem = Some name →
               name ∈ map axis_name (axes doc) →
               (∀ source, source ∈ sources doc →
                  src_location source !! name = None) →
               elem_default elem' = Some (str Inf))
        axis_elems axis_elems'.
Proof.
  destruct (compute_min_values_keys doc) as (min_values & Hrun & Hlook).
  exists (map (set_default str min_values) axis_elems). split.
  { unfold set_axis_defaults_to_minimums. by rewrite Hrun. }
  apply Forall2_fmap_r, Forall_Forall2_diag, Forall_forall.
  intros elem _. unfold compose, set_default.
  destruct (elem_name elem) as [name|] eqn:Hname.
  - rewrite Hlook.
    destruct (decide (name ∈ map axis_name (axes doc))) as [Hin|Hnot]; simpl.
    + split; [done|]. split; [done|]. split.
      * intros Hout. by destruct (Hout name).
      * intros name' [= <-] _ Hnone.
        by rewrite (source_coordinates_none _ _ Hnone).
    + split; [done|]. split; [done|]. split; [done|].
      by intros name' [= <-] Hin.
  - split; [done|]. split; [done|]. split; [done|]. by intros name' [=].
Qed.

(** ** The whole run *)


Section MainFacts.
Variable float : string → option Q.
Variable relpath : string → string → string.
Variable str : pyfloat → string.
Variable write : DesignSpaceDocument → list axis_elem.

End MainFacts.




(** ** The inspectors on any build *)

Lemma measure_all_measured (measured rest : list otf_file) (widths : list Z)
    (results : list Inspector.row) (log : list log_record) :
  Forall2 (fun otf width => otf_measure otf = Ok width) measured widths →
  ∃ log',
    Inspector.measure_all (measured ++ rest) results log
    = Inspector.measure_all rest
        (results
         ++ zip_with (fun otf width =>
                        {| Inspector.Instance := otf_stem otf;
                           Inspector.Width := width |})
                     measured widths)
        log'.
Proof.
  intros Hall. revert results log.
  induction Hall as [|otf width measured widths Hwidth _ IH];
    intros results log.
  - exists log. by rewrite app_nil_r.
  - simpl. rewrite Hwidth.
    match goal with
    | |- context [Inspector.measure_all _ ?r ?l] =>
        destruct (IH r l) as [log' ->]
    end.
    exists log'. by rewrite <- app_assoc.
Qed.

(** X15.  When [export] can be created and [fontmake] succeeds, the first
    inspector returns one row per binary, in the order of the glob, holding
    the stem of the file and the width measured for it, up to the first
    binary on which shaping raises an [Exception]: the rows of the binaries
    before it are returned, and none for it or for the binaries after it. *)
Theorem inspector_rows_follow_the_files (env : environment)
    (measured rest : list otf_file) (widths : list Z) :
  env_mkdir env = Ok () →
  env_fontmake env = Ok 0%Z →
  env_otf_files env = measured ++ rest →
  Forall2 (fun otf width => otf_measure otf = Ok width) measured widths →
  (rest = [] ∧ measured ≠ [])
  ∨ (∃ bad e rest',
       rest = bad :: rest' ∧ otf_measure bad = Raise e
       ∧ is_Exception e = true) →
  ∃ log,
    Inspector.process_instances_with_harfbuzz env
    = Ok (zip_with (fun otf width =>
                      {| Inspector.Instance := otf_stem otf;
                         Inspector.Width := width |})
                   measured widths,
          log).
Proof.
  intros Hmkdir Hfontmake Hfiles Hall Hrest.
  unfold Inspector.process_instances_with_harfbuzz, subprocess_run_check.
  rewrite Hmkdir, Hfontmake, Hfiles. simpl.
  destruct (measured ++ rest) as [|otf otfs] eqn:Hnonempty.
  { apply app_eq_nil in Hnonempty as [-> ->].
    by destruct Hrest as [[_ ?]|(? & ? & ? & ? & _)]. }
  rewrite <- Hnonempty.
  match goal with
  | |- context [Inspector.measure_all _ ?r ?l] =>
      destruct (measure_all_measured measured rest widths r l Hall)
        as [log' ->]
  end.
  simpl.
  destruct Hrest as [[-> _]|(bad & e & rest' & -> & Hbad & He)]; simpl.
  - by eexists.
  - rewrite Hbad.
    match goal with
    | |- context [handle e ?l] =>
        destruct (handle_Exception e l He) as [log'' ->]
    end.
    by eexists.
Qed.

Lemma inspector_rows_follow_the_files_witness :
  ∃ log,
    Inspector.process_instances_with_harfbuzz mixed_build
    = Ok ([{| Inspector.Instance := "Crispy-Regular";
              Inspector.Width := 600 |};
           {| Inspector.Instance := "Crispy-Bold";
              Inspector.Width := 640 |}],
          log).
Proof.
  apply (inspector_rows_follow_the_files mixed_build
           [static_otf; variable_otf] [] [600%Z; 640%Z]).
  - reflexivity.
  - reflexivity.
  - reflexivity.
  - constructor; [reflexivity|]. constructor; [reflexivity|]. constructor.
  - left. split; [reflexivity | discriminate].
Defined.

(** X16.  Neither inspector lets an [Exception] escape once [export] has
    been created: if a run raises, the error is the one raised by creating
    [export], or it is outside [Exception] (a keyboard interrupt, an
    exit). *)
Theorem inspectors_swallow_exceptions (env : environment) (text : string)
    (e : exn) :
  Inspector.process_instances_with_harfbuzz env = Raise e
  ∨ Inspector2.process_instances_with_harfbuzz env text = Raise e →
  env_mkdir env = Raise e ∨ is_Exception e = false.
Proof.
  unfold Inspector.process_instances_with_harfbuzz,
    Inspector2.process_instances_with_harfbuzz.
  destruct (env_mkdir env) as [[]|e0]; simpl;
    [|intros [[= ->]|[= ->]]; by left].
  intros Hraise. right.
  destruct (subprocess_run_check (env_fontmake env)) as [[]|e1].
  - destruct (env_otf_files env) as [|otf otfs]; [by destruct Hraise|].
    destruct Hraise as [Hraise|Hraise].
    + destruct (Inspector.measure_all _ _ _) as [[results log] [e'|]];
        [|done].
      destruct (handle e' log) as [log'|e''] eqn:Hhandle; [done|].
      apply handle_Raise in Hhandle as [-> ?]. by injection Hraise as <-.
    + destruct (Inspector2.measure_all _ _ _) as [st [e'|]]; [|done].
      simpl in Hraise.
      destruct (handle e' (Inspector2.log st)) as [log'|e''] eqn:Hhandle;
        [done|].
      apply handle_Raise in Hhandle as [-> ?]. by injection Hraise as <-.
  - destruct Hraise as [Hraise|Hraise]; simpl in Hraise.
    + destruct (handle e1 _) as [log'|e''] eqn:Hhandle; [done|].
      apply handle_Raise in Hhandle as [-> ?]. by injection Hraise as <-.
    + destruct (handle e1 _) as [log'|e''] eqn:Hhandle; [done|].
      apply handle_Raise in Hhandle as [-> ?]. by injection Hraise as <-.
Qed.

Lemma inspectors_swallow_exceptions_witness :
  Inspector.process_instances_with_harfbuzz interrupted_build
  = Raise KeyboardInterrupt
  ∧ (env_mkdir interrupted_build = Raise KeyboardInterrupt
     ∨ is_Exception KeyboardInterrupt = false).
Proof.
  split; [reflexivity|].
  apply (inspectors_swallow_exceptions interrupted_build "H").
  left. reflexivity.
Defined.

(** ** The table of the second inspector *)




